(** * The Prophecies session controller

    A shallow embedding of the React controller that drives a game of
    Prophecies against the WebAssembly search engine: the [Cell] and [Grid]
    components, the validation regex, the timers that run pondering and the
    agent's move, and the win-probability estimate.

    Conventions of the embedding.
    - A JavaScript string is the list of its UTF-16 code units.
    - A JavaScript number is [number]: NaN, an infinity, or a finite value
      kept as a rational.  [parseInt] rounds the integer it reads to the
      nearest binary64 value ([Js.of_int]); the arithmetic of the estimate
      is exact, and the sign of zero is not modelled.
    - The engine ([wasm.WasmBot]) is a parameter: the class [WasmBot].
    - Handlers are computations in a state-and-exception monad over
      [World], which holds the component instance, the per-cell input
      states, the timer queue, the console and the list of engine calls made
      so far. *)

From Stdlib Require Import String Ascii DecimalString.
From Stdlib Require Import List ZArith NArith QArith Bool Lia Lqa.
Import ListNotations.

Close Scope Q_scope.

Set Implicit Arguments.

(* ------------------------------------------------------------------ *)
(** ** Strings *)

Module Js.

(** A string value: its UTF-16 code units. *)
Definition str := list N.

Definition lit (s : string) : str :=
  map N_of_ascii (list_ascii_of_string s).

Fixpoint str_eqb (a b : str) : bool :=
  match a, b with
  | [], [] => true
  | x :: a', y :: b' => N.eqb x y && str_eqb a' b'
  | _, _ => false
  end.

Definition is_digit (c : N) : bool := (48 <=? c)%N && (c <=? 57)%N.

(* ------------------------------------------------------------------ *)
(** ** Numbers *)

Inductive number :=
| NaN
| Infinity (negative : bool)
| Fin (q : Q).

Definition of_Z (z : Z) : number := Fin (inject_Z z).

(** The integer that a binary64 value can hold nearest to the natural
    number [a]: [a] itself below 2^53, otherwise [a] rounded to 53
    significant bits, to nearest and to even on a tie. *)
Definition round53 (a : Z) : Z :=
  let e := Z.log2 a in
  if (e <? 53)%Z then a
  else
    let shift := (e - 52)%Z in
    let q := Z.shiftr a shift in
    let rest := (a - Z.shiftl q shift)%Z in
    let half := Z.shiftl 1 (shift - 1) in
    let q' :=
      if (half <? rest)%Z || ((rest =? half)%Z && Z.odd q) then (q + 1)%Z
      else q in
    Z.shiftl q' shift.

(** The Number value of a mathematical integer: rounded as above, and an
    infinity once the rounded value reaches 2^1024. *)
Definition of_int (z : Z) : number :=
  let a := round53 (Z.abs z) in
  if (1024 <=? Z.log2 a)%Z then Infinity (z <? 0)%Z
  else Fin (inject_Z (Z.sgn z * a)).

Definition q_negative (q : Q) : bool := (Qnum q <? 0)%Z.
Definition q_zero (q : Q) : bool := (Qnum q =? 0)%Z.

(** [a + b] *)
Definition add (a b : number) : number :=
  match a, b with
  | NaN, _ | _, NaN => NaN
  | Infinity s, Infinity t => if Bool.eqb s t then Infinity s else NaN
  | Infinity s, Fin _ | Fin _, Infinity s => Infinity s
  | Fin x, Fin y => Fin (x + y)
  end.

(** [a / b] *)
Definition div (a b : number) : number :=
  match a, b with
  | NaN, _ | _, NaN => NaN
  | Infinity _, Infinity _ => NaN
  | Infinity s, Fin y => Infinity (xorb s (q_negative y))
  | Fin _, Infinity _ => Fin 0
  | Fin x, Fin y =>
      if q_zero y then (if q_zero x then NaN else Infinity (q_negative x))
      else Fin (x / y)
  end.

(** [Object.is] on numbers, which [PureComponent] uses to compare state. *)
Definition same_number (a b : number) : bool :=
  match a, b with
  | NaN, NaN => true
  | Infinity s, Infinity t => Bool.eqb s t
  | Fin x, Fin y => Qeq_bool x y
  | _, _ => false
  end.

(* ------------------------------------------------------------------ *)
(** ** parseInt(s, 10) *)

(** WhiteSpace and LineTerminator code units, which [parseInt] skips. *)
Definition is_space (c : N) : bool :=
  existsb (N.eqb c)
    [9; 10; 11; 12; 13; 32; 160; 5760; 8232; 8233; 8239; 8287; 12288; 65279]%N
  || ((8192 <=? c)%N && (c <=? 8202)%N).

Fixpoint trim_start (s : str) : str :=
  match s with
  | c :: s' => if is_space c then trim_start s' else s
  | [] => []
  end.

Fixpoint take_digits (s : str) : str :=
  match s with
  | c :: s' => if is_digit c then c :: take_digits s' else []
  | [] => []
  end.

Definition digit_val (c : N) : Z := Z.of_N c - 48.

Definition math_int (ds : str) : Z :=
  fold_left (fun acc c => 10 * acc + digit_val c)%Z ds 0%Z.

(** [parseInt(s, 10)]: leading white space is skipped, a sign is read, and
    the longest run of decimal digits that follows is the integer, rounded
    to a Number; NaN when there is no digit.  Every digit counts: the
    licence to read the digits after the twentieth significant one as zeros
    is not taken. *)
Definition parseInt10 (s : str) : number :=
  let s1 := trim_start s in
  let sign :=
    match s1 with
    | c :: _ => if (c =? 45)%N then (-1)%Z else 1%Z
    | [] => 1%Z
    end in
  let s2 :=
    match s1 with
    | c :: s' => if (c =? 43)%N || (c =? 45)%N then s' else s1
    | [] => s1
    end in
  match take_digits s2 with
  | [] => NaN
  | ds => of_int (sign * math_int ds)
  end.

End Js.

(* ------------------------------------------------------------------ *)
(** ** Regular expressions

    The fragment of the pattern language that [legalActionRegex] uses, with
    a backtracking matcher.  [test] searches for a match starting at any
    offset, as [RegExp.prototype.test] does for a pattern without flags. *)

Module Regex.

Inductive atom :=
| Chr (c : N)
| Rng (lo hi : N)
| Or (a1 a2 : atom).   (* a class with several members *)

Inductive t :=
| Bol                  (* ^ *)
| Eol                  (* $ *)
| Atom (a : atom)
| Plus (a : atom)      (* a+ *)
| Opt (a : atom)       (* a{0,1} *)
| Cat (r1 r2 : t)
| Alt (r1 r2 : t).     (* r1|r2 *)

Fixpoint atom_match (a : atom) (c : N) : bool :=
  match a with
  | Chr x => N.eqb c x
  | Rng lo hi => (lo <=? c)%N && (c <=? hi)%N
  | Or a1 a2 => atom_match a1 c || atom_match a2 c
  end.

(** One or more [a], longest first, then the continuation. *)
Fixpoint plus_k (a : atom) (s : Js.str) (k : Js.str -> bool) : bool :=
  match s with
  | c :: s' => atom_match a c && (plus_k a s' k || k s')
  | [] => false
  end.

(** [m r bol s k]: [r] matches a prefix of [s] and [k] accepts the rest.
    [bol] says whether the current position is the start of the input. *)
Fixpoint m (r : t) (bol : bool) (s : Js.str) (k : bool -> Js.str -> bool) : bool :=
  match r with
  | Bol => bol && k bol s
  | Eol => match s with [] => k bol s | _ :: _ => false end
  | Atom a => match s with c :: s' => atom_match a c && k false s' | [] => false end
  | Plus a => plus_k a s (k false)
  | Opt a =>
      match s with c :: s' => atom_match a c && k false s' | [] => false end
      || k bol s
  | Cat r1 r2 => m r1 bol s (fun b s' => m r2 b s' k)
  | Alt r1 r2 => m r1 bol s k || m r2 bol s k
  end.

Definition match_here (r : t) (bol : bool) (s : Js.str) : bool :=
  m r bol s (fun _ _ => true).

Fixpoint search (r : t) (bol : bool) (s : Js.str) : bool :=
  match_here r bol s ||
  match s with
  | [] => false
  | _ :: s' => search r false s'
  end.

Definition test (r : t) (s : Js.str) : bool := search r true s.

End Regex.

(** [new RegExp("^X|[0-9]+$")]: the alternation is the outermost operator,
    so the two alternatives are [^X] and [[0-9]+$]. *)
Definition legalActionRegex : Regex.t :=
  Regex.Alt (Regex.Cat Regex.Bol (Regex.Atom (Regex.Chr 88)))
            (Regex.Cat (Regex.Plus (Regex.Rng 48 57)) Regex.Eol).

(** [new RegExp("^[0-4X]{0,1}$")], the pattern of the superseded
    [www/index.js]. *)
Definition legalActionRegex_legacy : Regex.t :=
  Regex.Cat Regex.Bol
    (Regex.Cat (Regex.Opt (Regex.Or (Regex.Rng 48 52) (Regex.Chr 88)))
               Regex.Eol).

(* ------------------------------------------------------------------ *)
(** ** Constants *)

Definition HUMAN_PLAYER : nat := 0.
Definition BOT_PLAYER : nat := 1.

Definition MIN_PLAYOUTS_MS : Z := 256.
Definition PONDER_MS : Z := 128.
Definition PONDER_INTERVAL : Z := 1024.

(* ------------------------------------------------------------------ *)
(** ** The engine interface *)

(** What [get_cell] returns, and what a snapshot keeps per cell.  A missing
    field ([undefined] from the engine, [null] in the snapshot) is [None]. *)
Record CellInfo := { guess : option Z; player : option nat }.

Record Action := { a_row : nat; a_col : nat; a_guess : Js.number }.

(** The result of [get_best_action]: a move with its accumulated score and
    its visit count (a BigInt, read through [Number(...)]). *)
Record Edge := { action : Action; score : Js.number; visits : Z }.

(** Modelled from the spec: the [WasmBot] class of the [prophecies] WebAssembly
    package, which the controller imports and which is not part of the
    sources.  The operations are the ones the controller calls; only [place]
    can fail, with an IllegalMoveError that leaves the engine as it was.
    [free] gives the handle as it is after the release.  The spec calls a
    released handle unusable; the model lets a call on one go through, and
    the theorems about an unmounted grid state only what holds as well when
    such a call fails. *)
Class WasmBot (Bot : Type) := {
  wasm_new : nat -> nat -> nat -> Bot;
  get_cell : Bot -> nat -> nat -> CellInfo;
  get_active_player : Bot -> option nat;
  get_scores : Bot -> list Z;
  is_finished : Bot -> bool;
  place : Bot -> nat -> nat -> Js.number -> string + Bot;
  playout : Bot -> Bot;
  get_best_action : Bot -> option Edge;
  free : Bot -> Bot
}.

(** Modelled from the spec: the engine's convention for a recommendation,
    at least one visit and an accumulated score between minus and plus the
    number of visits. *)
Definition normalized (e : Edge) : Prop :=
  exists s : Q,
    score e = Js.Fin s /\ (0 < visits e)%Z /\
    (- inject_Z (visits e) <= s)%Q /\ (s <= inject_Z (visits e))%Q.

(** Modelled from the spec: what the controller relies on from the engine.
    A finished session has no active participant, a unit of search work
    changes the search statistics only, and a recommendation follows the
    score convention. *)
Class EngineContract (Bot : Type) {E : WasmBot Bot} : Prop := {
  finished_no_active :
    forall b : Bot, is_finished b = true -> get_active_player b = None;
  playout_active :
    forall b : Bot, get_active_player (playout b) = get_active_player b;
  recommendation_normalized :
    forall (b : Bot) (e : Edge), get_best_action b = Some e -> normalized e
}.

Arguments EngineContract Bot {E}.

(* ------------------------------------------------------------------ *)
(** ** Component state and the world around it *)

(** [GridState]: the session snapshot. *)
Record GridState := {
  activePlayer : option nat;
  grid : list (list CellInfo);
  scores : list Z;
  winProb : option Js.number
}.

Inductive Exn :=
| IllegalMoveError (msg : string)
| TypeError.

Inductive Callback := CbPonder | CbTakeBotAction.

(** The two places that call [playout]. *)
Inductive Site := InPonder | InTakeBotAction.

Inductive Call :=
| CallNew (nrows ncols first : nat)
| CallPlace (row col : nat) (g : Js.number)
| CallPlayout (site : Site)
| CallFree.

Inductive LogEntry :=
| LogError (e : Exn)
| LogFailedRegex (v : Js.str)
| LogPlayouts (n : nat) (ms : Z).

Inductive Lifecycle := Constructed | Mounted | Unmounted.

Section Controller.

Context {Bot : Type} {E : WasmBot Bot}.

#[projections(primitive)] Record World := {
  nrows : nat;                       (* props.nrows *)
  ncols : nat;                       (* props.ncols *)
  lifecycle : Lifecycle;
  bot : option Bot;                  (* this.bot, undefined before mount *)
  shouldPonder : bool;               (* undefined before mount, hence falsy *)
  state : GridState;                 (* this.state *)
  dirty : bool;                      (* a re-render is due *)
  contents : nat -> nat -> Js.str;   (* state.content of the Cell at (row, col) *)
  now : Z;                           (* the clock, in milliseconds *)
  timers : list (Z * Callback);      (* pending timeouts with their deadlines *)
  console : list LogEntry;
  calls : list Call;                 (* calls made on the engine so far *)
  uncaught : list Exn                (* errors that escaped a handler *)
}.

Definition set_lifecycle (x : Lifecycle) (w : World) : World :=
  {| nrows := nrows w; ncols := ncols w; lifecycle := x; bot := bot w;
     shouldPonder := shouldPonder w; state := state w; dirty := dirty w;
     contents := contents w; now := now w; timers := timers w;
     console := console w; calls := calls w; uncaught := uncaught w |}.

Definition set_bot (x : option Bot) (w : World) : World :=
  {| nrows := nrows w; ncols := ncols w; lifecycle := lifecycle w; bot := x;
     shouldPonder := shouldPonder w; state := state w; dirty := dirty w;
     contents := contents w; now := now w; timers := timers w;
     console := console w; calls := calls w; uncaught := uncaught w |}.

Definition set_shouldPonder (x : bool) (w : World) : World :=
  {| nrows := nrows w; ncols := ncols w; lifecycle := lifecycle w; bot := bot w;
     shouldPonder := x; state := state w; dirty := dirty w;
     contents := contents w; now := now w; timers := timers w;
     console := console w; calls := calls w; uncaught := uncaught w |}.

Definition set_state (x : GridState) (w : World) : World :=
  {| nrows := nrows w; ncols := ncols w; lifecycle := lifecycle w; bot := bot w;
     shouldPonder := shouldPonder w; state := x; dirty := dirty w;
     contents := contents w; now := now w; timers := timers w;
     console := console w; calls := calls w; uncaught := uncaught w |}.

Definition set_dirty (x : bool) (w : World) : World :=
  {| nrows := nrows w; ncols := ncols w; lifecycle := lifecycle w; bot := bot w;
     shouldPonder := shouldPonder w; state := state w; dirty := x;
     contents := contents w; now := now w; timers := timers w;
     console := console w; calls := calls w; uncaught := uncaught w |}.

Definition set_contents (x : nat -> nat -> Js.str) (w : World) : World :=
  {| nrows := nrows w; ncols := ncols w; lifecycle := lifecycle w; bot := bot w;
     shouldPonder := shouldPonder w; state := state w; dirty := dirty w;
     contents := x; now := now w; timers := timers w;
     console := console w; calls := calls w; uncaught := uncaught w |}.

Definition set_now (x : Z) (w : World) : World :=
  {| nrows := nrows w; ncols := ncols w; lifecycle := lifecycle w; bot := bot w;
     shouldPonder := shouldPonder w; state := state w; dirty := dirty w;
     contents := contents w; now := x; timers := timers w;
     console := console w; calls := calls w; uncaught := uncaught w |}.

Definition set_timers (x : list (Z * Callback)) (w : World) : World :=
  {| nrows := nrows w; ncols := ncols w; lifecycle := lifecycle w; bot := bot w;
     shouldPonder := shouldPonder w; state := state w; dirty := dirty w;
     contents := contents w; now := now w; timers := x;
     console := console w; calls := calls w; uncaught := uncaught w |}.

Definition set_console (x : list LogEntry) (w : World) : World :=
  {| nrows := nrows w; ncols := ncols w; lifecycle := lifecycle w; bot := bot w;
     shouldPonder := shouldPonder w; state := state w; dirty := dirty w;
     contents := contents w; now := now w; timers := timers w;
     console := x; calls := calls w; uncaught := uncaught w |}.

Definition set_calls (x : list Call) (w : World) : World :=
  {| nrows := nrows w; ncols := ncols w; lifecycle := lifecycle w; bot := bot w;
     shouldPonder := shouldPonder w; state := state w; dirty := dirty w;
     contents := contents w; now := now w; timers := timers w;
     console := console w; calls := x; uncaught := uncaught w |}.

Definition set_uncaught (x : list Exn) (w : World) : World :=
  {| nrows := nrows w; ncols := ncols w; lifecycle := lifecycle w; bot := bot w;
     shouldPonder := shouldPonder w; state := state w; dirty := dirty w;
     contents := contents w; now := now w; timers := timers w;
     console := console w; calls := calls w; uncaught := x |}.

(* ------------------------------------------------------------------ *)
(** ** Handlers as computations: state and exceptions *)

Inductive Res (A : Type) :=
| Ret (a : A)
| Throw (e : Exn).

Arguments Ret {A} a.
Arguments Throw {A} e.

Definition M (A : Type) : Type := World -> Res A * World.

Definition ret {A} (a : A) : M A := fun w => (Ret a, w).

Definition throw {A} (e : Exn) : M A := fun w => (Throw e, w).

Definition bind {A B} (c : M A) (k : A -> M B) : M B :=
  fun w =>
    match c w with
    | (Ret a, w') => k a w'
    | (Throw e, w') => (Throw e, w')
    end.

(** [try { c } catch (err) { h err }] *)
Definition try_catch {A} (c : M A) (h : Exn -> M A) : M A :=
  fun w =>
    match c w with
    | (Ret a, w') => (Ret a, w')
    | (Throw e, w') => h e w'
    end.

Definition get : M World := fun w => (Ret w, w).

Definition modify (f : World -> World) : M unit := fun w => (Ret tt, f w).

End Controller.

Arguments World Bot : clear implicits.
Arguments M Bot A : clear implicits.
Arguments Ret {A} a.
Arguments Throw {A} e.

Declare Scope js_scope.
Delimit Scope js_scope with js.
Notation "x <- c ;; k" := (bind c (fun x => k))
  (at level 61, c at next level, right associativity) : js_scope.
Notation "c ;; k" := (bind c (fun _ => k))
  (at level 61, right associativity) : js_scope.

(* ------------------------------------------------------------------ *)
(** ** The components *)

Section Components.

Context {Bot : Type} {E : WasmBot Bot}.

Local Open Scope js_scope.

Definition console_log (x : LogEntry) : M Bot unit :=
  modify (fun w => set_console (console w ++ [x]) w).

Definition log_call (c : Call) : M Bot unit :=
  modify (fun w => set_calls (calls w ++ [c]) w).

(** [window.setTimeout(cb, delay)] *)
Definition setTimeout (cb : Callback) (delay : Z) : M Bot unit :=
  modify (fun w => set_timers (timers w ++ [(now w + delay, cb)%Z]) w).

(** Reading [this.bot] to call a method on it: a TypeError while it is
    undefined. *)
Definition the_bot : M Bot Bot :=
  w <- get ;;
  match bot w with
  | Some b => ret b
  | None => throw TypeError
  end.

(** [x === p] for an optional player number [x]. *)
Definition is_player (x : option nat) (p : nat) : bool :=
  match x with
  | Some q => Nat.eqb q p
  | None => false
  end.

(* ---------------------------------------------------------------- *)
(** *** Grid *)

(** [Grid.getWinProb] *)
Definition getWinProb (w : World Bot) : option Js.number :=
  match bot w with
  | None => None
  | Some b =>
      if negb (is_player (get_active_player b) HUMAN_PLAYER) then None
      else
        match get_best_action b with
        | None => None
        | Some edge =>
            Some (Js.div (Js.add (Js.Fin 1)
                                 (Js.div (score edge) (Js.of_Z (visits edge))))
                         (Js.Fin 2))
        end
  end.

(** [Grid.getGameState] *)
Definition getGameState (w : World Bot) : GridState :=
  let cell r c :=
    match bot w with
    | Some b =>
        let cell := get_cell b r c in
        {| guess := guess cell; player := player cell |}
    | None => {| guess := None; player := None |}
    end in
  let grid :=
    map (fun r => map (fun c => cell r c) (seq 0 (ncols w))) (seq 0 (nrows w)) in
  {| activePlayer :=
       match bot w with
       | Some b => get_active_player b
       | None => Some HUMAN_PLAYER
       end;
     winProb := getWinProb w;
     scores :=
       match bot w with
       | Some b => get_scores b
       | None => [0; 0]%Z
       end;
     grid := grid |}.

(** The effect of [Grid.render]: a deferred [takeBotAction] when the
    snapshot says that the agent is to move.  The elements it returns are
    a function of the snapshot and are not kept. *)
Definition render : M Bot unit :=
  w <- get ;;
  if is_player (activePlayer (state w)) BOT_PLAYER
  then setTimeout CbTakeBotAction 0
  else ret tt.

(** [this.setState(s)] with a whole new snapshot.  The handlers never read
    [this.state] after they have called [setState], so the new state is
    stored at once; the re-render happens once, before the task returns
    (see [flush]).  The grid of a new snapshot is a new array, so the
    component always re-renders.  An unmounted component ignores updates. *)
Definition setState (s : GridState) : M Bot unit :=
  w <- get ;;
  match lifecycle w with
  | Mounted => modify (fun w => set_dirty true (set_state s w))
  | _ => ret tt
  end.

Definition same_winProb (a b : option Js.number) : bool :=
  match a, b with
  | None, None => true
  | Some x, Some y => Js.same_number x y
  | _, _ => false
  end.

(** [this.setState({ winProb: p })]: the other fields are kept, and a
    [PureComponent] re-renders only when a field has changed. *)
Definition setState_winProb (p : option Js.number) : M Bot unit :=
  w <- get ;;
  match lifecycle w with
  | Mounted =>
      let s := state w in
      let s' := {| activePlayer := activePlayer s; grid := grid s;
                   scores := scores s; winProb := p |} in
      modify (fun w =>
                set_dirty (dirty w || negb (same_winProb (winProb s) p))
                          (set_state s' w))
  | _ => ret tt
  end.

(** [n] calls of [this.bot.playout()]. *)
Fixpoint playouts (site : Site) (n : nat) : M Bot unit :=
  match n with
  | O => ret tt
  | S n' =>
      b <- the_bot ;;
      log_call (CallPlayout site) ;;
      modify (set_bot (Some (playout b))) ;;
      playouts site n'
  end.

(** [while (performance.now() - t0 < budget) this.bot.playout()]: the
    clock decides how many times the body runs; that number is [n], given
    from outside.  The loop ends once [budget] milliseconds have passed. *)
Definition playout_loop (site : Site) (budget : Z) (n : nat) : M Bot unit :=
  playouts site n ;;
  modify (fun w => set_now (now w + budget)%Z w).

(** [Grid.takeAction] *)
Definition takeAction (a : option Action) : M Bot unit :=
  match a with
  | None => ret tt
  | Some a =>
      b <- the_bot ;;
      log_call (CallPlace (a_row a) (a_col a) (a_guess a)) ;;
      match place b (a_row a) (a_col a) (a_guess a) with
      | inl msg => throw (IllegalMoveError msg)
      | inr b' =>
          modify (set_bot (Some b')) ;;
          w <- get ;;
          setState (getGameState w)
      end
  end.

(** [this.state.grid[row][col]]: a TypeError outside the grid. *)
Definition grid_cell (row col : nat) : M Bot CellInfo :=
  w <- get ;;
  match nth_error (grid (state w)) row with
  | None => throw TypeError
  | Some r =>
      match nth_error r col with
      | None => throw TypeError
      | Some c => ret c
      end
  end.

(** [Grid.onCellInputBlur]; [cellValue] is [e.currentTarget.value]. *)
Definition Grid_onCellInputBlur (row col : nat) (cellValue : Js.str) : M Bot unit :=
  c <- grid_cell row col ;;
  match player c with
  | Some _ => ret tt
  | None =>
      if match cellValue with [] => true | _ :: _ => false end
         || negb (Regex.test legalActionRegex cellValue)
      then ret tt
      else
        let guess :=
          if Js.str_eqb cellValue (Js.lit "X") then Js.Fin 0
          else Js.parseInt10 cellValue in
        takeAction (Some {| a_row := row; a_col := col; a_guess := guess |})
  end.

(** [Grid.onCellInputChange]; [value] is [e.target.value]. *)
Definition Grid_onCellInputChange (row col : nat) (value : Js.str) : M Bot unit :=
  if negb (Regex.test legalActionRegex value)
  then console_log (LogFailedRegex value)
  else ret tt.

(** [Grid.ponder]; [n] is the number of playouts the clock allows. *)
Definition ponder (n : nat) : M Bot unit :=
  w <- get ;;
  if negb (shouldPonder w) then ret tt
  else
    b <- the_bot ;;
    if is_finished b then modify (set_shouldPonder false)
    else
      playout_loop InPonder PONDER_MS n ;;
      console_log (LogPlayouts n PONDER_MS) ;;
      w <- get ;;
      setState_winProb (getWinProb w) ;;
      setTimeout CbPonder PONDER_INTERVAL.

(** [Grid.takeBotAction] *)
Definition takeBotAction (n : nat) : M Bot unit :=
  playout_loop InTakeBotAction MIN_PLAYOUTS_MS n ;;
  b <- the_bot ;;
  match get_best_action b with
  | None => modify (set_shouldPonder false)
  | Some edge => takeAction (Some (action edge))
  end.

(** [Grid.componentDidMount] *)
Definition componentDidMount (n : nat) : M Bot unit :=
  w <- get ;;
  log_call (CallNew (nrows w) (ncols w) HUMAN_PLAYER) ;;
  modify (set_bot (Some (wasm_new (nrows w) (ncols w) HUMAN_PLAYER))) ;;
  w <- get ;;
  setState (getGameState w) ;;
  modify (set_shouldPonder true) ;;
  ponder n.

(** [Grid.componentWillUnmount] *)
Definition componentWillUnmount : M Bot unit :=
  modify (set_shouldPonder false) ;;
  b <- the_bot ;;
  log_call CallFree ;;
  modify (set_bot (Some (free b))).

(* ---------------------------------------------------------------- *)
(** *** Cell *)

Definition set_content (row col : nat) (v : Js.str) : M Bot unit :=
  modify (fun w =>
    set_contents
      (fun r c => if Nat.eqb r row && Nat.eqb c col then v else contents w r c)
      w).

(** The decimal digits of a guess, as [String(guess)] gives them. *)
Definition number_to_str (z : Z) : Js.str :=
  Js.lit (DecimalString.NilZero.string_of_int (Z.to_int z)).

(** [Cell.getContent]: the value that the input shows, from the props that
    [Grid.render] passes and the cell's own state. *)
Definition Cell_getContent (w : World Bot) (row col : nat) : Js.str :=
  match nth_error (grid (state w)) row with
  | None => contents w row col
  | Some r =>
      match nth_error r col with
      | None => contents w row col
      | Some c =>
          match guess c with
          | None => contents w row col
          | Some 0%Z => Js.lit "X"
          | Some g => number_to_str g
          end
      end
  end.

(** [Cell.onBlur]; [value] is [e.currentTarget.value]. *)
Definition Cell_onBlur (row col : nat) (value : Js.str) : M Bot unit :=
  w <- get ;;
  (if Regex.test legalActionRegex (contents w row col)
   then try_catch (Grid_onCellInputBlur row col value)
                  (fun err => console_log (LogError err))
   else ret tt) ;;
  set_content row col [].

(** [Cell.onChange]; [value] is [e.currentTarget.value]. *)
Definition Cell_onChange (row col : nat) (value : Js.str) : M Bot unit :=
  set_content row col value ;;
  Grid_onCellInputChange row col value.

End Components.

(* ------------------------------------------------------------------ *)
(** ** The event loop *)

Section EventLoop.

Context {Bot : Type} {E : WasmBot Bot}.

(** The re-render that React performs before a task returns. *)
Definition flush (w : World Bot) : World Bot :=
  if dirty w then snd (render (set_dirty false w)) else w.

(** One task: a lifecycle method, an event handler or a timer callback.
    An error that the handler does not catch is reported to the window. *)
Definition dispatch (c : M Bot unit) (w : World Bot) : World Bot :=
  match c w with
  | (Ret _, w') => flush w'
  | (Throw e, w') => flush (set_uncaught (uncaught w' ++ [e]) w')
  end.

Fixpoint min_deadline (ts : list (Z * Callback)) : option Z :=
  match ts with
  | [] => None
  | (d, _) :: ts' =>
      match min_deadline ts' with
      | None => Some d
      | Some d' => Some (Z.min d d')
      end
  end.

Fixpoint take_at (d : Z) (ts : list (Z * Callback))
  : option (Callback * list (Z * Callback)) :=
  match ts with
  | [] => None
  | (d', cb) :: ts' =>
      if (d' =? d)%Z then Some (cb, ts')
      else
        match take_at d ts' with
        | Some (c, rest) => Some (c, (d', cb) :: rest)
        | None => None
        end
  end.

(** The timer that fires next: the one with the earliest deadline, the
    oldest among equals, once its deadline has come. *)
Definition next_timer (w : World Bot)
  : option (Callback * list (Z * Callback)) :=
  match min_deadline (timers w) with
  | Some d => if (d <=? now w)%Z then take_at d (timers w) else None
  | None => None
  end.

Definition run_callback (cb : Callback) (n : nat) : M Bot unit :=
  match cb with
  | CbPonder => ponder n
  | CbTakeBotAction => takeBotAction n
  end.

(** What happens to the page.  [n] is the number of playouts that the clock
    allows to the search loop of the task. *)
Inductive Event :=
| EvMount (n : nat)
| EvChange (row col : nat) (text : Js.str)
| EvBlur (row col : nat)
| EvTimer (n : nat)
| EvWait (ms : nat)
| EvUnmount.

Definition has_cell (w : World Bot) (row col : nat) : bool :=
  match lifecycle w with
  | Mounted => Nat.ltb row (nrows w) && Nat.ltb col (ncols w)
  | _ => false
  end.

Definition step (ev : Event) (w : World Bot) : World Bot :=
  match ev with
  | EvMount n =>
      match lifecycle w with
      | Constructed => dispatch (componentDidMount n) (set_lifecycle Mounted w)
      | _ => w
      end
  | EvChange row col text =>
      if has_cell w row col then dispatch (Cell_onChange row col text) w else w
  | EvBlur row col =>
      if has_cell w row col
      then dispatch (Cell_onBlur row col (Cell_getContent w row col)) w
      else w
  | EvTimer n =>
      match next_timer w with
      | Some (cb, rest) => dispatch (run_callback cb n) (set_timers rest w)
      | None => w
      end
  | EvWait ms => set_now (now w + Z.of_nat ms)%Z w
  | EvUnmount =>
      match lifecycle w with
      | Mounted => set_lifecycle Unmounted (dispatch componentWillUnmount w)
      | _ => w
      end
  end.

Definition run (evs : list Event) (w : World Bot) : World Bot :=
  fold_left (fun w ev => step ev w) evs w.

(** The component after its constructor and its first render. *)
Definition init (r c : nat) : World Bot :=
  let w0 :=
    {| nrows := r; ncols := c; lifecycle := Constructed; bot := None;
       shouldPonder := false;
       state := {| activePlayer := None; grid := []; scores := [];
                   winProb := None |};
       dirty := false; contents := fun _ _ => []; now := 0; timers := [];
       console := []; calls := []; uncaught := [] |} in
  snd (render (set_state (getGameState w0) w0)).

Definition is_cb (cb : Callback) (t : Z * Callback) : bool :=
  match snd t, cb with
  | CbPonder, CbPonder => true
  | CbTakeBotAction, CbTakeBotAction => true
  | _, _ => false
  end.

Definition count_cb (cb : Callback) (ts : list (Z * Callback)) : nat :=
  length (filter (is_cb cb) ts).

(** The number of pending timeouts that will call [cb]. *)
Definition pending (cb : Callback) (w : World Bot) : nat :=
  count_cb cb (timers w).

Definition is_playout_at (site : Site) (c : Call) : bool :=
  match c, site with
  | CallPlayout InPonder, InPonder => true
  | CallPlayout InTakeBotAction, InTakeBotAction => true
  | _, _ => false
  end.

(** The number of playouts that the loop at [site] has run. *)
Definition playouts_at (site : Site) (cs : list Call) : nat :=
  length (filter (is_playout_at site) cs).

Definition is_place (c : Call) : bool :=
  match c with
  | CallPlace _ _ _ => true
  | _ => false
  end.

(** What holds of the timers and of the engine handle in every world that
    the component can reach. *)
Definition wf (w : World Bot) : Prop :=
  (lifecycle w = Constructed -> timers w = [] /\ shouldPonder w = false)
  /\ (lifecycle w <> Constructed -> exists b, bot w = Some b)
  /\ (lifecycle w <> Mounted -> shouldPonder w = false)
  /\ pending CbPonder w <= 1.

(** The snapshot mirrors the engine: it names the engine's active player
    while the component is mounted, and it carries an estimate only when it
    names the human player. *)
Definition mirror (w : World Bot) : Prop :=
  (winProb (state w) <> None -> activePlayer (state w) = Some HUMAN_PLAYER)
  /\ (lifecycle w = Mounted ->
      exists b, bot w = Some b /\ activePlayer (state w) = get_active_player b).

(** [w'] comes from [w] by a task that is not a pondering cycle: the
    pending pondering timers and the playouts of the pondering loop are the
    same, and the flag has not been raised. *)
Definition quiet (w w' : World Bot) : Prop :=
  lifecycle w' = lifecycle w
  /\ (exists b, bot w' = Some b)
  /\ pending CbPonder w' = pending CbPonder w
  /\ (shouldPonder w = false -> shouldPonder w' = false)
  /\ playouts_at InPonder (calls w') = playouts_at InPonder (calls w).

(** Pondering has stopped: no cycle is pending and the flag is down. *)
Definition halted (w : World Bot) : Prop :=
  lifecycle w <> Constructed /\ pending CbPonder w = 0
  /\ shouldPonder w = false.

End EventLoop.

(* ------------------------------------------------------------------ *)
(** ** An engine to run the controller against *)

Module Fake.

(** Modelled from the spec: a small engine with the interface and the
    contract of the missing [WasmBot].  A move is legal on an empty cell of
    the board with a value from 0 to 4; the players alternate; the session is
    finished when the board is full; a recommendation exists once a playout
    has been run and names the first empty cell. *)
Record bot := {
  rows : nat;
  cols : nat;
  filled : list (nat * nat * (Z * nat));
  mover : nat;
  nplayouts : Z
}.

Fixpoint lookup (r c : nat) (l : list (nat * nat * (Z * nat))) : option (Z * nat) :=
  match l with
  | [] => None
  | (r', c', v) :: l' =>
      if Nat.eqb r r' && Nat.eqb c c' then Some v else lookup r c l'
  end.

Definition finished (b : bot) : bool :=
  Nat.leb (rows b * cols b) (length (filled b)).

Definition legal_value (g : Js.number) : option Z :=
  match g with
  | Js.Fin q =>
      if Pos.eqb (Qden q) 1 && (0 <=? Qnum q)%Z && (Qnum q <=? 4)%Z
      then Some (Qnum q) else None
  | _ => None
  end.

Definition do_place (b : bot) (r c : nat) (g : Js.number) : string + bot :=
  if negb (Nat.ltb r (rows b) && Nat.ltb c (cols b))
  then inl "out of bounds"%string
  else
    match lookup r c (filled b), legal_value g with
    | Some _, _ => inl "cell is taken"%string
    | None, None => inl "bad value"%string
    | None, Some z =>
        inr {| rows := rows b; cols := cols b;
               filled := (r, c, (z, mover b)) :: filled b;
               mover := 1 - mover b; nplayouts := 0 |}
    end.

Definition first_empty (b : bot) : option (nat * nat) :=
  find (fun p => match lookup (fst p) (snd p) (filled b) with
                 | None => true
                 | Some _ => false
                 end)
       (list_prod (seq 0 (rows b)) (seq 0 (cols b))).

Definition best (b : bot) : option Edge :=
  if finished b || (nplayouts b <=? 0)%Z then None
  else
    match first_empty b with
    | None => None
    | Some (r, c) =>
        Some {| action := {| a_row := r; a_col := c; a_guess := Js.of_Z 1 |};
                score := Js.Fin (1 # 2);
                visits := nplayouts b |}
    end.

Definition count_of (p : nat) (b : bot) : Z :=
  Z.of_nat (length (filter (fun x => Nat.eqb (snd (snd x)) p) (filled b))).

#[global] Instance engine : WasmBot bot := {
  wasm_new r c first :=
    {| rows := r; cols := c; filled := []; mover := first; nplayouts := 0 |};
  get_cell b r c :=
    match lookup r c (filled b) with
    | Some (z, p) => {| guess := Some z; player := Some p |}
    | None => {| guess := None; player := None |}
    end;
  get_active_player b := if finished b then None else Some (mover b);
  get_scores b := [count_of 0 b; count_of 1 b];
  is_finished := finished;
  place := do_place;
  playout b :=
    {| rows := rows b; cols := cols b; filled := filled b; mover := mover b;
       nplayouts := nplayouts b + 1 |};
  get_best_action := best;
  free b := b
}.

(** The same engine with a recommendation that does not follow the board:
    it always names the cell (0, 0). *)
Definition stale_engine : WasmBot bot := {|
  wasm_new := @wasm_new bot engine;
  get_cell := @get_cell bot engine;
  get_active_player := @get_active_player bot engine;
  get_scores := @get_scores bot engine;
  is_finished := @is_finished bot engine;
  place := @place bot engine;
  playout := @playout bot engine;
  get_best_action := fun _ =>
    Some {| action := {| a_row := 0; a_col := 0; a_guess := Js.of_Z 1 |};
            score := Js.Fin 0; visits := 1 |};
  free := @free bot engine
|}.

End Fake.

(* ------------------------------------------------------------------ *)
(** ** Notions used in the statements *)

(** What the pattern accepts, read off its two alternatives. *)
Definition starts_with_X (s : Js.str) : bool :=
  match s with
  | c :: _ => N.eqb c 88
  | [] => false
  end.

Fixpoint ends_with_digit (s : Js.str) : bool :=
  match s with
  | [] => false
  | [c] => Js.is_digit c
  | _ :: s' => ends_with_digit s'
  end.

Definition all_digits (s : Js.str) : bool := forallb Js.is_digit s.

(** The value of a digit sequence, position by position. *)
Fixpoint decimal_value (s : Js.str) : Z :=
  match s with
  | [] => 0
  | c :: s' => Js.digit_val c * 10 ^ Z.of_nat (length s') + decimal_value s'
  end.

(** The tokens that the specification calls a placement: the blank marker
    X, or a sequence of digits. *)
Definition is_blank_or_digits (s : Js.str) : bool :=
  Js.str_eqb s (Js.lit "X")
  || (match s with [] => false | _ :: _ => true end && all_digits s).

Definition at_end (s : Js.str) : bool :=
  match s with
  | [] => true
  | _ :: _ => false
  end.


(* ------------------------------------------------------------------ *)
(** ** Sessions against the small engine *)

Module Scenario.

(** A 2 x 2 board just after mount; the first pondering cycle ran 3
    playouts. *)
Definition mounted : World Fake.bot := run [EvMount 3] (init 2 2).

(** The human has typed a 9 into the cell (0, 1). *)
Definition typed_9 : World Fake.bot :=
  run [EvMount 3; EvChange 0 1 (Js.lit "9")] (init 2 2).

(** The human has committed a 3 at (0, 0); the agent is to move. *)
Definition bot_to_move : World Fake.bot :=
  run [EvMount 3; EvChange 0 0 (Js.lit "3"); EvBlur 0 0] (init 2 2).

(** The agent has answered after 5 playouts. *)
Definition round_played : World Fake.bot :=
  run [EvMount 3; EvChange 0 0 (Js.lit "3"); EvBlur 0 0; EvTimer 5] (init 2 2).

(** The human commits a 3 at (0, 0) six milliseconds after the deadline of
    the pending pondering cycle, before that cycle has run. *)
Definition late_commit : World Fake.bot :=
  run [EvMount 3; EvWait 1030; EvChange 0 0 (Js.lit "3"); EvBlur 0 0]
      (init 2 2).

(** A 1 x 1 board that the human has filled; the pondering cycle is due. *)
Definition full_board : World Fake.bot :=
  run [EvMount 3; EvChange 0 0 (Js.lit "1"); EvBlur 0 0; EvWait 2000]
      (init 1 1).

(** The session of [bot_to_move] against the engine with the stale
    recommendation. *)
Definition stale_bot_to_move : World Fake.bot :=
  @run Fake.bot Fake.stale_engine
       [EvMount 1; EvChange 0 0 (Js.lit "3"); EvBlur 0 0]
       (@init Fake.bot Fake.stale_engine 2 2).

End Scenario.

(* ------------------------------------------------------------------ *)
(** ** Proof automation *)

(** Unfold the monad and the primitive operations of the handlers and
    reduce the projections of the updated worlds. *)
Ltac exec1 :=
  unfold render, setState, setState_winProb, set_content, console_log,
    log_call, setTimeout, the_bot, try_catch in *;
  unfold bind, ret, get, modify, throw in *;
  cbn beta iota zeta delta
    [fst snd set_bot set_calls set_state set_dirty set_timers set_console
     set_now set_shouldPonder set_lifecycle set_contents set_uncaught
     bot calls state dirty timers console now shouldPonder lifecycle
     contents uncaught nrows ncols] in *.

(** Split on the innermost test that blocks the computation. *)
Ltac case_inner :=
  match goal with
  | |- context [match ?x with _ => _ end] =>
      lazymatch x with
      | context [match _ with _ => _ end] => fail
      | _ => destruct x eqn:?
      end
  end.

Ltac exec := exec1; repeat (case_inner; exec1).

(* ------------------------------------------------------------------ *)
(** ** The superseded validator *)

Module Legacy.

Section Components.

Context {Bot : Type} {E : WasmBot Bot}.

Local Open Scope js_scope.

(** [Grid.onCellInputBlur] of [www/index.js]: the same text as the current
    handler, with the pattern of that file. *)
Definition Grid_onCellInputBlur (row col : nat) (cellValue : Js.str) : M Bot unit :=
  c <- grid_cell row col ;;
  match player c with
  | Some _ => ret tt
  | None =>
      if match cellValue with [] => true | _ :: _ => false end
         || negb (Regex.test legalActionRegex_legacy cellValue)
      then ret tt
      else
        let guess :=
          if Js.str_eqb cellValue (Js.lit "X") then Js.Fin 0
          else Js.parseInt10 cellValue in
        takeAction (Some {| a_row := row; a_col := col; a_guess := guess |})
  end.

End Components.

End Legacy.

(* ------------------------------------------------------------------ *)
(** ** Further notions used in the statements *)

Definition unfilled : CellInfo := {| guess := None; player := None |}.

(** The snapshot has a row for every row of the board and a cell for every
    column. *)
Definition grid_shape {Bot : Type} (w : World Bot) : Prop :=
  length (grid (state w)) = nrows w
  /\ Forall (fun r => length r = ncols w) (grid (state w)).

(** The calls that create and release the engine. *)
Definition is_lifetime_call (c : Call) : bool :=
  match c with
  | CallNew _ _ _ | CallFree => true
  | _ => false
  end.

Definition lifetime_calls (cs : list Call) : list Call :=
  filter is_lifetime_call cs.

(** An engine that recommends a move before it has searched: the
    recommendation of the small engine, present from the start, with the
    number of playouts so far as its visit count and a score of zero. *)
Definition cold_engine : WasmBot Fake.bot := {|
  wasm_new := @wasm_new Fake.bot Fake.engine;
  get_cell := @get_cell Fake.bot Fake.engine;
  get_active_player := @get_active_player Fake.bot Fake.engine;
  get_scores := @get_scores Fake.bot Fake.engine;
  is_finished := @is_finished Fake.bot Fake.engine;
  place := @place Fake.bot Fake.engine;
  playout := @playout Fake.bot Fake.engine;
  get_best_action := fun b =>
    Some {| action := {| a_row := 0; a_col := 0; a_guess := Js.of_Z 1 |};
            score := Js.Fin 0; visits := Fake.nplayouts b |};
  free := @free Fake.bot Fake.engine
|}.

Module Session.

(** The human has typed a 3 into the cell (0, 0) of a 2 x 2 board. *)
Definition typed_3 : World Fake.bot :=
  run [EvMount 3; EvChange 0 0 (Js.lit "3")] (init 2 2).

(** The page is closed while the agent's move is still deferred. *)
Definition closed_early : World Fake.bot :=
  run [EvMount 3; EvChange 0 0 (Js.lit "3"); EvBlur 0 0; EvUnmount] (init 2 2).

(** A board mounted against [cold_engine] with no playout in the first
    pondering cycle. *)
Definition cold : World Fake.bot :=
  @run Fake.bot cold_engine [EvMount 0] (@init Fake.bot cold_engine 2 2).

End Session.

(** [w'] comes from [w] by engine work and snapshot updates only: the props,
    the lifecycle, the uncaught errors, the pending moves of the agent and
    the calls that create or release the engine are the same, and the
    snapshot keeps the shape of the board. *)
Definition steady {Bot : Type} (w w' : World Bot) : Prop :=
  nrows w' = nrows w
  /\ ncols w' = ncols w
  /\ lifecycle w' = lifecycle w
  /\ uncaught w' = uncaught w
  /\ lifetime_calls (calls w') = lifetime_calls (calls w)
  /\ count_cb CbTakeBotAction (timers w') = count_cb CbTakeBotAction (timers w)
  /\ (grid_shape w -> grid_shape w').

(** The engine is created when the grid is mounted, with the human as the
    first mover, and released when it is unmounted: the calls that create
    and release it, in the order in which they were made. *)
Definition engine_lifetime {Bot : Type} (w : World Bot) : Prop :=
  lifetime_calls (calls w)
  = match lifecycle w with
    | Constructed => []
    | Mounted => [CallNew (nrows w) (ncols w) HUMAN_PLAYER]
    | Unmounted => [CallNew (nrows w) (ncols w) HUMAN_PLAYER; CallFree]
    end.

(* ================================================================== *)
(** * Properties *)

Unset Implicit Arguments.

(* ------------------------------------------------------------------ *)
(** ** Strings, the validation regex and [parseInt] *)

Lemma str_eqb_eq (a b : Js.str) : Js.str_eqb a b = true <-> a = b.
Proof.
  revert b; induction a as [|x a IH]; intros [|y b]; simpl;
    try (split; [discriminate | congruence]); try tauto.
  rewrite andb_true_iff, N.eqb_eq, IH. split.
  - intros [-> ->]; reflexivity.
  - intros H; injection H; auto.
Qed.

Example regex_X : Regex.test legalActionRegex (Js.lit "X") = true.
Proof. reflexivity. Qed.
Example regex_12 : Regex.test legalActionRegex (Js.lit "12") = true.
Proof. reflexivity. Qed.
Example regex_empty : Regex.test legalActionRegex (Js.lit "") = false.
Proof. reflexivity. Qed.
Example regex_Xa : Regex.test legalActionRegex (Js.lit "Xa") = true.
Proof. reflexivity. Qed.
Example regex_a1 : Regex.test legalActionRegex (Js.lit "a1") = true.
Proof. reflexivity. Qed.
Example regex_1a : Regex.test legalActionRegex (Js.lit "1a") = false.
Proof. reflexivity. Qed.
Example parse_12 : Js.parseInt10 (Js.lit "12") = Js.of_Z 12.
Proof. reflexivity. Qed.
Example parse_Xa : Js.parseInt10 (Js.lit "Xa") = Js.NaN.
Proof. reflexivity. Qed.
Example parse_m5 : Js.parseInt10 (Js.lit " -5") = Js.of_Z (-5).
Proof. reflexivity. Qed.

Lemma plus_digits_to_end (s : Js.str) :
  Regex.plus_k (Regex.Rng 48 57) s at_end = negb (at_end s) && all_digits s.
Proof.
  induction s as [|c s IH]; [reflexivity|].
  cbn [Regex.plus_k Regex.atom_match]. rewrite IH.
  unfold all_digits. cbn [forallb at_end negb andb]. fold (Js.is_digit c).
  destruct (Js.is_digit c); [|reflexivity].
  destruct s; simpl; [reflexivity|].
  rewrite orb_false_r. reflexivity.
Qed.

Lemma match_here_legal (bol : bool) (s : Js.str) :
  Regex.match_here legalActionRegex bol s
  = (bol && starts_with_X s) || (negb (at_end s) && all_digits s).
Proof.
  unfold Regex.match_here, legalActionRegex. cbn [Regex.m].
  change (Regex.plus_k (Regex.Rng 48 57) s _)
    with (Regex.plus_k (Regex.Rng 48 57) s at_end).
  rewrite plus_digits_to_end. f_equal.
  destruct bol; [|reflexivity]. destruct s as [|c s]; [reflexivity|].
  simpl. destruct (N.eqb c 88); reflexivity.
Qed.

Lemma all_digits_ends_with_digit (s : Js.str) :
  s <> [] -> all_digits s = true -> ends_with_digit s = true.
Proof.
  induction s as [|c s IH]; [congruence|]. intros _ H.
  unfold all_digits in H; simpl in H. apply andb_true_iff in H as [Hc Hs].
  destruct s as [|d s]; [exact Hc|].
  change (ends_with_digit (d :: s) = true). apply IH; [discriminate|exact Hs].
Qed.

Lemma search_tail (s : Js.str) :
  Regex.search legalActionRegex false s = ends_with_digit s.
Proof.
  induction s as [|c s IH]; [reflexivity|].
  change (Regex.search legalActionRegex false (c :: s))
    with (Regex.match_here legalActionRegex false (c :: s)
          || Regex.search legalActionRegex false s).
  rewrite IH, match_here_legal. cbn [andb orb at_end negb].
  destruct s as [|d s].
  - unfold all_digits; simpl. rewrite andb_true_r, orb_false_r. reflexivity.
  - change (ends_with_digit (c :: d :: s)) with (ends_with_digit (d :: s)).
    destruct (all_digits (c :: d :: s)) eqn:H; cbn [orb]; [|reflexivity].
    symmetry. apply (all_digits_ends_with_digit (d :: s)); [discriminate|].
    unfold all_digits in *. cbn [forallb] in H.
    apply andb_true_iff in H. tauto.
Qed.

(** The pattern accepts a string exactly when it starts with an X or ends
    with a digit. *)
Lemma test_legalActionRegex (s : Js.str) :
  Regex.test legalActionRegex s = starts_with_X s || ends_with_digit s.
Proof.
  destruct s as [|c s]; [reflexivity|].
  unfold Regex.test.
  change (Regex.search legalActionRegex true (c :: s))
    with (Regex.match_here legalActionRegex true (c :: s)
          || Regex.search legalActionRegex false s).
  rewrite search_tail, match_here_legal. cbn [andb at_end negb].
  destruct (starts_with_X (c :: s)); [reflexivity|]. cbn [orb].
  destruct (all_digits (c :: s)) eqn:H; cbn [orb].
  - symmetry. apply (all_digits_ends_with_digit (c :: s)); [discriminate|exact H].
  - destruct s; [|reflexivity].
    unfold all_digits in H; simpl in *. rewrite andb_true_r in H. auto.
Qed.

Lemma test_empty : Regex.test legalActionRegex [] = false.
Proof. reflexivity. Qed.

Lemma test_digits (s : Js.str) :
  s <> [] -> all_digits s = true -> Regex.test legalActionRegex s = true.
Proof.
  intros Hne Hd. rewrite test_legalActionRegex.
  rewrite (all_digits_ends_with_digit _ Hne Hd). apply orb_true_r.
Qed.

Lemma digit_not_space (c : N) : Js.is_digit c = true -> Js.is_space c = false.
Proof.
  unfold Js.is_digit, Js.is_space. intros H.
  apply andb_true_iff in H as [H1 H2].
  apply N.leb_le in H1, H2.
  apply orb_false_iff; split.
  - simpl. repeat (apply orb_false_iff; split); try reflexivity;
      apply N.eqb_neq; lia.
  - apply andb_false_iff; left. apply N.leb_gt. lia.
Qed.

Lemma take_all_digits (s : Js.str) :
  all_digits s = true -> Js.take_digits s = s.
Proof.
  induction s as [|c s IH]; [reflexivity|].
  unfold all_digits; simpl. intros H. apply andb_true_iff in H as [Hc Hs].
  rewrite Hc, IH; auto.
Qed.

Lemma fold_digits (s : Js.str) (acc : Z) :
  fold_left (fun a c => 10 * a + Js.digit_val c)%Z s acc
  = (acc * 10 ^ Z.of_nat (length s) + decimal_value s)%Z.
Proof.
  revert acc; induction s as [|c s IH]; intros acc; cbn [fold_left].
  - cbn [decimal_value length Z.of_nat]. rewrite Z.pow_0_r. lia.
  - rewrite IH. cbn [decimal_value length].
    rewrite Nat2Z.inj_succ, Z.pow_succ_r by lia. ring.
Qed.

Lemma math_int_decimal (s : Js.str) : Js.math_int s = decimal_value s.
Proof. unfold Js.math_int. rewrite fold_digits. lia. Qed.

(** An integer below 2^53 in absolute value is a Number as it is. *)
Lemma of_int_safe (z : Z) :
  (Z.abs z < 2 ^ 53)%Z -> Js.of_int z = Js.of_Z z.
Proof.
  intros H. unfold Js.of_int, Js.round53, Js.of_Z.
  assert (Hl : (Z.log2 (Z.abs z) < 53)%Z).
  { destruct (Z.eq_dec (Z.abs z) 0) as [H0|H0].
    - rewrite H0. reflexivity.
    - apply Z.log2_lt_pow2; lia. }
  apply Z.ltb_lt in Hl as Hl'. rewrite Hl'. cbn zeta.
  replace (1024 <=? Z.log2 (Z.abs z))%Z with false
    by (symmetry; apply Z.leb_gt; lia).
  do 2 f_equal. destruct z; reflexivity.
Qed.

Lemma decimal_value_nonneg (s : Js.str) :
  all_digits s = true -> (0 <= decimal_value s)%Z.
Proof.
  induction s as [|c s IH]; [cbn; lia|].
  unfold all_digits; cbn [forallb]. intros H.
  apply andb_true_iff in H as [Hc Hs]. specialize (IH Hs).
  unfold Js.is_digit in Hc. apply andb_true_iff in Hc as [H1 _].
  apply N.leb_le in H1. cbn [decimal_value]. unfold Js.digit_val.
  assert (0 <= 10 ^ Z.of_nat (length s))%Z by (apply Z.pow_nonneg; lia).
  nia.
Qed.

(** [parseInt] of a digit sequence is its decimal value, as long as that
    value is below 2^53; beyond, the value is rounded. *)
Lemma parseInt10_digits (s : Js.str) :
  s <> [] -> all_digits s = true -> (decimal_value s < 2 ^ 53)%Z ->
  Js.parseInt10 s = Js.of_Z (decimal_value s).
Proof.
  intros Hne Hd Hsafe. pose proof (decimal_value_nonneg s Hd) as Hpos.
  destruct s as [|c s]; [congruence|].
  assert (Hc : Js.is_digit c = true).
  { unfold all_digits in Hd; simpl in Hd. apply andb_true_iff in Hd; tauto. }
  unfold Js.parseInt10. cbn [Js.trim_start].
  rewrite (digit_not_space _ Hc).
  assert (H45 : (c =? 45)%N = false).
  { unfold Js.is_digit in Hc. apply andb_true_iff in Hc as [H1 _].
    apply N.leb_le in H1. apply N.eqb_neq. lia. }
  assert (H43 : (c =? 43)%N = false).
  { unfold Js.is_digit in Hc. apply andb_true_iff in Hc as [H1 _].
    apply N.leb_le in H1. apply N.eqb_neq. lia. }
  rewrite H45, H43. cbn [orb].
  rewrite (take_all_digits _ Hd), math_int_decimal.
  replace (1 * decimal_value (c :: s))%Z with (decimal_value (c :: s)) by lia.
  apply of_int_safe. lia.
Qed.

Example parse_rounded :
  Js.parseInt10 (Js.lit "9007199254740993") = Js.of_Z 9007199254740992.
Proof. reflexivity. Qed.

Lemma digits_not_X (s : Js.str) :
  all_digits s = true -> Js.str_eqb s (Js.lit "X") = false.
Proof.
  destruct s as [|c s]; [reflexivity|].
  unfold all_digits; simpl. intros H. apply andb_true_iff in H as [Hc _].
  unfold Js.is_digit in Hc. apply andb_true_iff in Hc as [_ H2].
  apply N.leb_le in H2.
  replace (c =? 88)%N with false; [reflexivity|].
  symmetry. apply N.eqb_neq. lia.
Qed.

(** The superseded pattern is anchored at both ends: it accepts the empty
    string and the one-character tokens 0 to 4 and X, nothing else. *)
Lemma test_legacy (s : Js.str) :
  Regex.test legalActionRegex_legacy s
  = match s with
    | [] => true
    | [c] => ((48 <=? c)%N && (c <=? 52)%N) || N.eqb c 88
    | _ :: _ :: _ => false
    end.
Proof.
  assert (Hno : forall t, Regex.search legalActionRegex_legacy false t = false).
  { induction t as [|c t IH]; [reflexivity|].
    change (Regex.search legalActionRegex_legacy false (c :: t))
      with (Regex.match_here legalActionRegex_legacy false (c :: t)
            || Regex.search legalActionRegex_legacy false t).
    rewrite IH. reflexivity. }
  destruct s as [|c s]; [reflexivity|].
  unfold Regex.test.
  change (Regex.search legalActionRegex_legacy true (c :: s))
    with (Regex.match_here legalActionRegex_legacy true (c :: s)
          || Regex.search legalActionRegex_legacy false s).
  rewrite Hno, orb_false_r.
  unfold Regex.match_here, legalActionRegex_legacy.
  cbn [Regex.m Regex.atom_match andb orb].
  destruct s as [|d s]; rewrite orb_false_r;
    [rewrite andb_true_r|rewrite andb_false_r]; reflexivity.
Qed.

(** Every token that the specification calls a placement passes the
    pattern; the converse fails. *)
Lemma blank_or_digits_accepted (s : Js.str) :
  is_blank_or_digits s = true -> Regex.test legalActionRegex s = true.
Proof.
  unfold is_blank_or_digits. intros H. apply orb_true_iff in H as [H|H].
  - apply str_eqb_eq in H. subst s. reflexivity.
  - apply andb_true_iff in H as [Hne Hd].
    apply test_digits; [|exact Hd]. destruct s; [discriminate|discriminate].
Qed.

(* ------------------------------------------------------------------ *)
(** ** The handlers, one by one *)

Section HandlerFacts.

Context {Bot : Type} {E : WasmBot Bot}.

Implicit Types (w : World Bot) (b : Bot).

Lemma takeAction_no_bot w (a : Action) :
  bot w = None -> takeAction (Some a) w = (Throw TypeError, w).
Proof.
  intros Hb. unfold takeAction, bind, the_bot, get, throw. cbn.
  rewrite Hb. reflexivity.
Qed.

Lemma takeAction_reject w b (a : Action) (msg : string) :
  bot w = Some b ->
  place b (a_row a) (a_col a) (a_guess a) = inl msg ->
  takeAction (Some a) w
  = (Throw (IllegalMoveError msg),
     set_calls (calls w ++ [CallPlace (a_row a) (a_col a) (a_guess a)]) w).
Proof.
  intros Hb Hp. unfold takeAction, bind, the_bot, get, log_call, modify, ret.
  cbn. rewrite Hb. cbn. rewrite Hp. reflexivity.
Qed.

Lemma takeAction_accept w b b' (a : Action) :
  bot w = Some b ->
  place b (a_row a) (a_col a) (a_guess a) = inr b' ->
  let w1 :=
    set_bot (Some b')
      (set_calls (calls w ++ [CallPlace (a_row a) (a_col a) (a_guess a)]) w) in
  takeAction (Some a) w = setState (getGameState w1) w1.
Proof.
  intros Hb Hp. unfold takeAction, bind, the_bot, get, log_call, modify, ret.
  cbn. rewrite Hb. cbn. rewrite Hp. reflexivity.
Qed.

Lemma setState_calls (s : GridState) w :
  fst (setState s w) = Ret tt /\
  calls (snd (setState s w)) = calls w /\
  bot (snd (setState s w)) = bot w /\
  timers (snd (setState s w)) = timers w /\
  shouldPonder (snd (setState s w)) = shouldPonder w /\
  console (snd (setState s w)) = console w /\
  lifecycle (snd (setState s w)) = lifecycle w.
Proof.
  unfold setState, bind, get, modify, ret. destruct (lifecycle w) eqn:L; cbn; auto 10.
Qed.

(** A forwarded move always leaves a trace: a [place] call, or the
    TypeError of a missing engine. *)
Lemma takeAction_not_silent w (a : Action) :
  takeAction (Some a) w <> (Ret tt, w).
Proof.
  destruct (bot w) as [b|] eqn:Hb.
  - intros H. assert (Hc : calls (snd (takeAction (Some a) w)) = calls w)
      by (rewrite H; reflexivity).
    destruct (place b (a_row a) (a_col a) (a_guess a)) as [msg|b'] eqn:Hp.
    + rewrite (takeAction_reject _ _ _ _ Hb Hp) in Hc. cbn in Hc.
      apply (f_equal (@length _)) in Hc. rewrite length_app in Hc. cbn in Hc. lia.
    + rewrite (takeAction_accept _ _ _ _ Hb Hp) in Hc. cbn zeta in Hc.
      destruct (setState_calls
        (getGameState (set_bot (Some b')
          (set_calls (calls w ++ [CallPlace (a_row a) (a_col a) (a_guess a)]) w)))
        (set_bot (Some b')
          (set_calls (calls w ++ [CallPlace (a_row a) (a_col a) (a_guess a)]) w)))
        as (_ & Hc' & _).
      rewrite Hc' in Hc. cbn in Hc.
      apply (f_equal (@length _)) in Hc. rewrite length_app in Hc. cbn in Hc. lia.
  - rewrite (takeAction_no_bot _ _ Hb). discriminate.
Qed.

Lemma grid_cell_found w (row col : nat) (r : list CellInfo) (c : CellInfo) :
  nth_error (grid (state w)) row = Some r -> nth_error r col = Some c ->
  grid_cell row col w = (Ret c, w).
Proof.
  intros Hr Hc. unfold grid_cell, bind, get, ret. cbn. rewrite Hr, Hc. reflexivity.
Qed.

(** The re-render at the end of a task touches the timers only. *)
Lemma dispatch_returns (c : M Bot unit) w w' :
  c w = (Ret tt, w') ->
  state (dispatch c w) = state w'
  /\ calls (dispatch c w) = calls w'
  /\ bot (dispatch c w) = bot w'
  /\ uncaught (dispatch c w) = uncaught w'.
Proof.
  intros H. unfold dispatch, flush. rewrite H.
  destruct (dirty w'); [|repeat split; reflexivity].
  unfold render, bind, get, setTimeout, modify, ret. cbn.
  destruct (is_player (activePlayer (state w')) BOT_PLAYER); cbn;
    repeat split; reflexivity.
Qed.

Lemma onCellInputBlur_unfilled w (row col : nat) (r : list CellInfo)
      (c : CellInfo) (v : Js.str) :
  nth_error (grid (state w)) row = Some r -> nth_error r col = Some c ->
  player c = None ->
  Grid_onCellInputBlur row col v w
  = if at_end v || negb (Regex.test legalActionRegex v) then (Ret tt, w)
    else takeAction
           (Some {| a_row := row; a_col := col;
                    a_guess := if Js.str_eqb v (Js.lit "X") then Js.Fin 0
                               else Js.parseInt10 v |}) w.
Proof.
  intros Hr Hc Hp. unfold Grid_onCellInputBlur, bind.
  rewrite (grid_cell_found _ _ _ _ _ Hr Hc), Hp.
  destruct v as [|x v]; [reflexivity|]. cbn [at_end orb].
  destruct (negb (Regex.test legalActionRegex (x :: v))); reflexivity.
Qed.

(** What the handler does with a token on an unfilled cell, in terms of
    its own test: the token is forwarded to [takeAction] exactly when it
    passes [legalActionRegex] and is not empty.  The value forwarded is 0
    for the token X and the decimal value for a digit sequence below 2^53.
    A token that fails the test is dropped: the handler returns and nothing
    has changed. *)
Lemma onCellInputBlur_by_pattern w (row col : nat)
      (r : list CellInfo) (c : CellInfo) (v : Js.str) :
  nth_error (grid (state w)) row = Some r -> nth_error r col = Some c ->
  player c = None ->
  ((exists g : Js.number,
       Grid_onCellInputBlur row col v w
       = takeAction (Some {| a_row := row; a_col := col; a_guess := g |}) w)
   <-> (Regex.test legalActionRegex v = true /\ v <> []))
  /\ (v = Js.lit "X" ->
      Grid_onCellInputBlur row col v w
      = takeAction (Some {| a_row := row; a_col := col; a_guess := Js.Fin 0 |}) w)
  /\ (v <> [] -> all_digits v = true -> (decimal_value v < 2 ^ 53)%Z ->
      Grid_onCellInputBlur row col v w
      = takeAction (Some {| a_row := row; a_col := col;
                            a_guess := Js.of_Z (decimal_value v) |}) w)
  /\ (~ (Regex.test legalActionRegex v = true /\ v <> []) ->
      Grid_onCellInputBlur row col v w = (Ret tt, w)).
Proof.
  intros Hr Hc Hp.
  pose proof (onCellInputBlur_unfilled w row col r c v Hr Hc Hp) as H.
  split; [split|split; [|split]].
  - intros [g Hg]. rewrite Hg in H.
    destruct v as [|x v].
    + cbn [at_end orb] in H. exfalso. exact (takeAction_not_silent _ _ H).
    + cbn [at_end orb] in H. split; [|discriminate].
      destruct (Regex.test legalActionRegex (x :: v)); [reflexivity|].
      cbn [negb] in H. exfalso. exact (takeAction_not_silent _ _ H).
  - intros [Ht Hne]. rewrite H, Ht.
    destruct v as [|x v]; [congruence|]. cbn [at_end negb orb]. eauto.
  - intros ->. rewrite H. reflexivity.
  - intros Hne Hd Hsafe. rewrite H, (test_digits _ Hne Hd).
    destruct v as [|x v]; [congruence|]. cbn [at_end negb orb].
    rewrite (digits_not_X _ Hd), (parseInt10_digits _ Hne Hd Hsafe).
    reflexivity.
  - intros Hn. rewrite H. destruct v as [|x v]; [reflexivity|].
    cbn [at_end orb].
    destruct (Regex.test legalActionRegex (x :: v)); [|reflexivity].
    exfalso. apply Hn. split; [reflexivity|discriminate].
Qed.

Lemma takeAction_calls w b (a : Action) :
  bot w = Some b ->
  calls (snd (takeAction (Some a) w))
  = calls w ++ [CallPlace (a_row a) (a_col a) (a_guess a)].
Proof.
  intros Hb.
  destruct (place b (a_row a) (a_col a) (a_guess a)) as [msg|b'] eqn:Hp.
  - rewrite (takeAction_reject w b a msg Hb Hp). reflexivity.
  - rewrite (takeAction_accept w b b' a Hb Hp). cbn zeta.
    match goal with
    | |- calls (snd (setState ?s ?x)) = _ =>
        destruct (setState_calls s x) as (_ & Hc & _); rewrite Hc
    end.
    reflexivity.
Qed.

(** Which tokens reach the engine: on an unfilled cell of a mounted grid,
    [place] is called exactly for the tokens that start with an X or end
    with a digit. *)
Lemma tokens_reaching_place w b (row col : nat) (r : list CellInfo)
      (c : CellInfo) (v : Js.str) :
  bot w = Some b ->
  nth_error (grid (state w)) row = Some r -> nth_error r col = Some c ->
  player c = None ->
  (exists g : Js.number,
      calls (snd (Grid_onCellInputBlur row col v w))
      = calls w ++ [CallPlace row col g])
  <-> starts_with_X v || ends_with_digit v = true.
Proof.
  intros Hb Hr Hc Hp.
  rewrite (onCellInputBlur_unfilled w row col r c v Hr Hc Hp).
  rewrite <- test_legalActionRegex.
  destruct v as [|x v].
  - cbn [at_end orb snd]. rewrite test_empty. split; [|discriminate].
    intros [g Hg]. apply (f_equal (@length _)) in Hg.
    rewrite length_app in Hg. cbn in Hg. lia.
  - cbn [at_end orb].
    destruct (Regex.test legalActionRegex (x :: v)); cbn [negb].
    + split; [reflexivity|]. intros _. eexists.
      rewrite (takeAction_calls w b _ Hb). reflexivity.
    + cbn [snd]. split; [|discriminate].
      intros [g Hg]. apply (f_equal (@length _)) in Hg.
      rewrite length_app in Hg. cbn in Hg. lia.
Qed.

(** C9. On an unfilled cell, [Grid.onCellInputBlur] does not drop every
    token that is neither X nor a digit sequence.  Such a token is forwarded
    to [takeAction] whenever it starts with an X or ends with a digit, with
    whatever [parseInt] reads from it as the value, and [place] is called
    with that value. *)
Theorem onCellInputBlur_forwards_tokens_outside_the_grammar w b
      (row col : nat) (r : list CellInfo) (c : CellInfo) (v : Js.str) :
  bot w = Some b ->
  nth_error (grid (state w)) row = Some r -> nth_error r col = Some c ->
  player c = None ->
  is_blank_or_digits v = false ->
  starts_with_X v || ends_with_digit v = true ->
  Grid_onCellInputBlur row col v w
  = takeAction (Some {| a_row := row; a_col := col;
                        a_guess := Js.parseInt10 v |}) w
  /\ Grid_onCellInputBlur row col v w <> (Ret tt, w)
  /\ calls (snd (Grid_onCellInputBlur row col v w))
     = calls w ++ [CallPlace row col (Js.parseInt10 v)].
Proof.
  intros Hb Hr Hc Hp Hn Hacc.
  assert (HX : Js.str_eqb v (Js.lit "X") = false).
  { unfold is_blank_or_digits in Hn. apply orb_false_iff in Hn. tauto. }
  assert (H : Grid_onCellInputBlur row col v w
              = takeAction (Some {| a_row := row; a_col := col;
                                    a_guess := Js.parseInt10 v |}) w).
  { rewrite (onCellInputBlur_unfilled w row col r c v Hr Hc Hp).
    rewrite test_legalActionRegex, Hacc, HX.
    destruct v as [|x v]; [discriminate|]. reflexivity. }
  split; [exact H|]. rewrite H. split; [apply takeAction_not_silent|].
  rewrite (takeAction_calls w b _ Hb). reflexivity.
Qed.

(** C2. A commit on a cell that the snapshot shows as filled does nothing:
    [Grid.onCellInputBlur] returns at once, so [place] is not called, and
    after [Cell.onBlur] the snapshot, the engine, the timers and the console
    are what they were; the active participant in particular. *)
Theorem blur_on_filled_cell_is_noop w (row col : nat) (r : list CellInfo)
      (c : CellInfo) (p : nat) (v : Js.str) :
  nth_error (grid (state w)) row = Some r -> nth_error r col = Some c ->
  player c = Some p ->
  Grid_onCellInputBlur row col v w = (Ret tt, w)
  /\ fst (Cell_onBlur row col v w) = Ret tt
  /\ (let w' := snd (Cell_onBlur row col v w) in
      state w' = state w
      /\ activePlayer (state w') = activePlayer (state w)
      /\ calls w' = calls w
      /\ bot w' = bot w
      /\ timers w' = timers w
      /\ shouldPonder w' = shouldPonder w
      /\ dirty w' = dirty w
      /\ console w' = console w
      /\ uncaught w' = uncaught w)
  /\ (let w' := dispatch (Cell_onBlur row col v) w in
      state w' = state w /\ calls w' = calls w /\ bot w' = bot w).
Proof.
  intros Hr Hc Hp.
  assert (HG : Grid_onCellInputBlur row col v w = (Ret tt, w)).
  { unfold Grid_onCellInputBlur, bind.
    rewrite (grid_cell_found _ _ _ _ _ Hr Hc), Hp. reflexivity. }
  split; [exact HG|].
  assert (HC : Cell_onBlur row col v w
          = (Ret tt, set_contents
                 (fun r' c' => if Nat.eqb r' row && Nat.eqb c' col then []
                               else contents w r' c') w)).
  { unfold Cell_onBlur, bind, get, try_catch, set_content, modify, ret. cbn.
    destruct (Regex.test legalActionRegex (contents w row col));
      [rewrite HG|]; reflexivity. }
  split; [rewrite HC; reflexivity|].
  split; [rewrite HC; cbn; repeat split; reflexivity|].
  destruct (dispatch_returns _ w _ HC) as (D1 & D2 & D3 & _).
  cbn zeta. rewrite D1, D2, D3. repeat split; reflexivity.
Qed.

(** C10. A change event stores the typed text in the cell's own state,
    whatever the text is, and touches nothing else: the snapshot, the
    engine, the timers and the list of engine calls are what they were.  The
    regex check of the change handler only writes a line to the console. *)
Theorem change_event_keeps_game_state w (row col : nat) (text : Js.str) :
  fst (Cell_onChange row col text w) = Ret tt
  /\ (let w' := snd (Cell_onChange row col text w) in
      contents w' row col = text
      /\ state w' = state w
      /\ bot w' = bot w
      /\ calls w' = calls w
      /\ timers w' = timers w
      /\ shouldPonder w' = shouldPonder w
      /\ dirty w' = dirty w
      /\ lifecycle w' = lifecycle w
      /\ uncaught w' = uncaught w
      /\ console w'
         = console w ++ (if Regex.test legalActionRegex text then []
                         else [LogFailedRegex text]))
  /\ (let w' := dispatch (Cell_onChange row col text) w in
      state w' = state w /\ calls w' = calls w /\ bot w' = bot w).
Proof.
  assert (HC : exists w1,
             Cell_onChange row col text w = (Ret tt, w1)
             /\ contents w1 row col = text
             /\ state w1 = state w /\ bot w1 = bot w /\ calls w1 = calls w
             /\ timers w1 = timers w /\ shouldPonder w1 = shouldPonder w
             /\ dirty w1 = dirty w /\ lifecycle w1 = lifecycle w
             /\ uncaught w1 = uncaught w
             /\ console w1
                = console w ++ (if Regex.test legalActionRegex text then []
                                else [LogFailedRegex text])).
  { unfold Cell_onChange, Grid_onCellInputChange, bind, set_content, modify,
      console_log, ret. cbn.
    destruct (Regex.test legalActionRegex text); cbn; eexists;
      (split; [reflexivity|]); cbn;
      rewrite ?Nat.eqb_refl, ?app_nil_r; cbn; repeat split; reflexivity. }
  destruct HC as (w1 & HC & H).
  destruct (dispatch_returns _ w _ HC) as (D1 & D2 & D3 & _).
  rewrite HC. cbn [fst snd]. split; [reflexivity|]. split; [exact H|].
  cbn zeta. rewrite D1, D2, D3. tauto.
Qed.

(** C3. When the engine rejects the move of a human commit, the
    IllegalMoveError leaves [Grid.takeAction] and [Grid.onCellInputBlur]
    uncaught and is caught by the [try] of [Cell.onBlur], which writes it to
    the console and returns normally.  The snapshot is what it was: no
    [setState] has run, no re-render is due, no timer was added. *)
Theorem illegal_human_move_is_caught_in_Cell_onBlur w b (row col : nat)
      (r : list CellInfo) (c : CellInfo) (v : Js.str) (msg : string) :
  bot w = Some b ->
  nth_error (grid (state w)) row = Some r -> nth_error r col = Some c ->
  player c = None ->
  Regex.test legalActionRegex (contents w row col) = true ->
  Regex.test legalActionRegex v = true ->
  place b row col (if Js.str_eqb v (Js.lit "X") then Js.Fin 0
                   else Js.parseInt10 v) = inl msg ->
  fst (Grid_onCellInputBlur row col v w) = Throw (IllegalMoveError msg)
  /\ fst (Cell_onBlur row col v w) = Ret tt
  /\ (let w' := snd (Cell_onBlur row col v w) in
      console w' = console w ++ [LogError (IllegalMoveError msg)]
      /\ state w' = state w
      /\ bot w' = bot w
      /\ dirty w' = dirty w
      /\ timers w' = timers w
      /\ shouldPonder w' = shouldPonder w
      /\ uncaught w' = uncaught w)
  /\ uncaught (dispatch (Cell_onBlur row col v) w) = uncaught w
  /\ state (dispatch (Cell_onBlur row col v) w) = state w.
Proof.
  intros Hb Hr Hc Hp Hcont Hv Hplace.
  pose proof (onCellInputBlur_unfilled w row col r c v Hr Hc Hp) as HG.
  rewrite Hv in HG. destruct v as [|x v]; [discriminate Hv|].
  cbn [at_end negb orb] in HG.
  rewrite (takeAction_reject w b
             {| a_row := row; a_col := col;
                a_guess := if Js.str_eqb (x :: v) (Js.lit "X") then Js.Fin 0
                           else Js.parseInt10 (x :: v) |} msg Hb Hplace) in HG.
  cbn [a_row a_col a_guess] in HG.
  assert (HC : Cell_onBlur row col (x :: v) w
          = (Ret tt, set_contents
                 (fun r' c' => if Nat.eqb r' row && Nat.eqb c' col then []
                               else contents w r' c')
                 (set_console (console w ++ [LogError (IllegalMoveError msg)])
                    (set_calls (calls w ++ [CallPlace row col
                       (if Js.str_eqb (x :: v) (Js.lit "X") then Js.Fin 0
                        else Js.parseInt10 (x :: v))]) w)))).
  { unfold Cell_onBlur, bind, get, try_catch. cbn beta iota.
    rewrite Hcont, HG. reflexivity. }
  split; [rewrite HG; reflexivity|].
  split; [rewrite HC; reflexivity|].
  split; [rewrite HC; cbn; repeat split; reflexivity|].
  unfold dispatch. rewrite HC. unfold flush. cbn.
  destruct (dirty w); cbn; [|split; reflexivity].
  unfold render, bind, get, setTimeout, modify, ret. cbn.
  destruct (is_player (activePlayer (state w)) BOT_PLAYER); cbn;
    split; reflexivity.
Qed.

Lemma playouts_spec (site : Site) (n : nat) : forall w b,
  bot w = Some b ->
  playouts site n w
  = (Ret tt,
     set_bot (Some (Nat.iter n playout b))
       (set_calls (calls w ++ repeat (CallPlayout site) n) w)).
Proof.
  induction n as [|n IH]; intros w b Hb.
  - cbn [playouts Nat.iter repeat nat_rect]. rewrite app_nil_r, <- Hb. reflexivity.
  - cbn [playouts]. unfold bind at 1. unfold the_bot, bind, get, ret.
    cbn beta iota. rewrite Hb. cbn beta iota.
    unfold log_call, modify. cbn beta iota.
    erewrite IH by reflexivity.
    rewrite Nat.iter_succ_r. cbn -[Nat.iter].
    rewrite <- app_assoc. reflexivity.
Qed.

Lemma playout_loop_spec (site : Site) (budget : Z) (n : nat) w b :
  bot w = Some b ->
  playout_loop site budget n w
  = (Ret tt,
     set_now (now w + budget)%Z
       (set_bot (Some (Nat.iter n playout b))
          (set_calls (calls w ++ repeat (CallPlayout site) n) w))).
Proof.
  intros Hb. unfold playout_loop, bind. rewrite (playouts_spec site n w b Hb).
  reflexivity.
Qed.

Lemma filter_place_playouts (site : Site) (n : nat) (cs : list Call) :
  filter is_place (cs ++ repeat (CallPlayout site) n) = filter is_place cs.
Proof.
  rewrite filter_app.
  replace (filter is_place (repeat (CallPlayout site) n)) with (@nil Call).
  - apply app_nil_r.
  - induction n; cbn; auto.
Qed.

(** C8. When [get_best_action] has no recommendation after the playouts of
    [takeBotAction], the handler sets [shouldPonder] to false and returns:
    it makes no [place] call and leaves the snapshot and the timers alone,
    whatever [is_finished] says.  The next pondering cycle then stops at
    its first test. *)
Theorem takeBotAction_without_recommendation w b (n : nat) :
  bot w = Some b ->
  get_best_action (Nat.iter n playout b) = None ->
  fst (takeBotAction n w) = Ret tt
  /\ (let w' := snd (takeBotAction n w) in
      shouldPonder w' = false
      /\ calls w' = calls w ++ repeat (CallPlayout InTakeBotAction) n
      /\ filter is_place (calls w') = filter is_place (calls w)
      /\ state w' = state w
      /\ dirty w' = dirty w
      /\ timers w' = timers w
      /\ forall m : nat, ponder m w' = (Ret tt, w')).
Proof.
  intros Hb Hnone.
  assert (HT : takeBotAction n w
          = (Ret tt,
             set_shouldPonder false
               (set_now (now w + MIN_PLAYOUTS_MS)%Z
                  (set_bot (Some (Nat.iter n playout b))
                     (set_calls
                        (calls w ++ repeat (CallPlayout InTakeBotAction) n) w))))).
  { unfold takeBotAction, bind.
    rewrite (playout_loop_spec _ _ n w b Hb).
    unfold the_bot, bind, get, ret, modify. cbn. rewrite Hnone. reflexivity. }
  rewrite HT. cbn [fst snd]. split; [reflexivity|]. cbn zeta.
  repeat split; try reflexivity.
  apply filter_place_playouts.
Qed.

(** An estimate that [getWinProb] returns is (1 + score / visits) / 2 for
    the engine's current recommendation; it lies between 0 and 1 when the
    recommendation follows the score convention. *)
Lemma winProb_formula w (p : Js.number) :
  getWinProb w = Some p ->
  exists b edge,
    bot w = Some b /\ get_best_action b = Some edge
    /\ p = Js.div (Js.add (Js.Fin 1)
                          (Js.div (score edge) (Js.of_Z (visits edge))))
                  (Js.Fin 2)
    /\ (normalized edge ->
        exists q : Q, p = Js.Fin q /\ (0 <= q)%Q /\ (q <= 1)%Q).
Proof.
  unfold getWinProb. intros H.
  destruct (bot w) as [b|]; [|discriminate].
  destruct (negb (is_player (get_active_player b) HUMAN_PLAYER)); [discriminate|].
  destruct (get_best_action b) as [edge|] eqn:He; [|discriminate].
  injection H as <-. exists b, edge.
  split; [reflexivity|]. split; [exact He|]. split; [reflexivity|].
  intros (s & Hs & Hv & Hlo & Hhi). rewrite Hs.
  unfold Js.of_Z, Js.div at 2, Js.q_zero. cbn [inject_Z Qnum].
  replace (visits edge =? 0)%Z with false by (symmetry; apply Z.eqb_neq; lia).
  cbn [Js.add]. unfold Js.div, Js.q_zero. cbn [Qnum].
  change (2 =? 0)%Z with false. cbn iota.
  eexists; split; [reflexivity|].
  assert (Hpos : (0 < inject_Z (visits edge))%Q).
  { unfold Qlt, inject_Z; cbn. lia. }
  change (visits edge # 1)%Q with (inject_Z (visits edge)).
  assert (H1 : (-1 <= s / inject_Z (visits edge))%Q).
  { apply Qle_shift_div_l; [exact Hpos|]. 
    setoid_replace (-1 * inject_Z (visits edge))%Q with (- inject_Z (visits edge))%Q
      by ring. exact Hlo. }
  assert (H2 : (s / inject_Z (visits edge) <= 1)%Q).
  { apply Qle_shift_div_r; [exact Hpos|].
    setoid_replace (1 * inject_Z (visits edge))%Q with (inject_Z (visits edge))%Q
      by ring. exact Hhi. }
  split.
  - apply Qle_shift_div_l; [reflexivity|]. lra.
  - apply Qle_shift_div_r; [reflexivity|]. lra.
Qed.

End HandlerFacts.

(* ------------------------------------------------------------------ *)
(** ** Timers and tasks *)

Lemma count_cb_app (cb : Callback) (l1 l2 : list (Z * Callback)) :
  count_cb cb (l1 ++ l2) = count_cb cb l1 + count_cb cb l2.
Proof. unfold count_cb. rewrite filter_app, length_app. reflexivity. Qed.

Lemma playouts_at_app (site : Site) (l1 l2 : list Call) :
  playouts_at site (l1 ++ l2) = playouts_at site l1 + playouts_at site l2.
Proof. unfold playouts_at. rewrite filter_app, length_app. reflexivity. Qed.

Lemma playouts_at_repeat_same (site : Site) (n : nat) :
  playouts_at site (repeat (CallPlayout site) n) = n.
Proof.
  unfold playouts_at. induction n as [|n IH]; [reflexivity|].
  cbn [repeat filter]. destruct site; cbn; rewrite IH; reflexivity.
Qed.

Lemma playouts_at_repeat_other (n : nat) :
  playouts_at InPonder (repeat (CallPlayout InTakeBotAction) n) = 0.
Proof. unfold playouts_at. induction n as [|n IH]; [reflexivity|exact IH]. Qed.

Lemma take_at_count (d : Z) : forall (ts rest : list (Z * Callback)) (cb : Callback),
  take_at d ts = Some (cb, rest) ->
  count_cb CbPonder ts
  = count_cb CbPonder rest + match cb with CbPonder => 1 | CbTakeBotAction => 0 end.
Proof.
  induction ts as [|[d' cb'] ts IH]; intros rest cb H; [discriminate|].
  cbn [take_at] in H. destruct (d' =? d)%Z.
  - injection H as <- <-. unfold count_cb. cbn [filter].
    destruct cb'; cbn; lia.
  - destruct (take_at d ts) as [[c r]|] eqn:Ht; [|discriminate].
    injection H as <- <-. specialize (IH _ _ eq_refl).
    unfold count_cb in *. cbn [filter].
    destruct (is_cb CbPonder (d', cb')); cbn [length]; lia.
Qed.

Section LoopFacts.

Context {Bot : Type} {E : WasmBot Bot}.

Implicit Types (w : World Bot) (b : Bot).

Lemma next_timer_count w (cb : Callback) (rest : list (Z * Callback)) :
  next_timer w = Some (cb, rest) ->
  pending CbPonder w
  = count_cb CbPonder rest + match cb with CbPonder => 1 | CbTakeBotAction => 0 end.
Proof.
  unfold next_timer, pending. destruct (min_deadline (timers w)) as [d|]; [|discriminate].
  destruct (d <=? now w)%Z; [|discriminate]. apply take_at_count.
Qed.

Lemma next_timer_nonempty w (x : Callback * list (Z * Callback)) :
  next_timer w = Some x -> timers w <> [].
Proof.
  unfold next_timer. destruct (timers w); [discriminate|]. intros _. discriminate.
Qed.

Lemma flush_effects w :
  lifecycle (flush w) = lifecycle w
  /\ bot (flush w) = bot w
  /\ state (flush w) = state w
  /\ shouldPonder (flush w) = shouldPonder w
  /\ calls (flush w) = calls w
  /\ console (flush w) = console w
  /\ uncaught (flush w) = uncaught w
  /\ pending CbPonder (flush w) = pending CbPonder w.
Proof.
  unfold flush, pending. destruct (dirty w); [|repeat split; reflexivity].
  exec; repeat split; try reflexivity.
  rewrite count_cb_app. cbn. lia.
Qed.

Lemma quiet_refl w b : bot w = Some b -> quiet w w.
Proof. intros Hb. unfold quiet. eauto 10. Qed.

Lemma quiet_flush w w' : quiet w w' -> quiet w (flush w').
Proof.
  destruct (flush_effects w') as (H1 & H2 & _ & H4 & H5 & _ & _ & H8).
  unfold quiet. rewrite H1, H2, H4, H5, H8. tauto.
Qed.

Lemma quiet_dispatch (c : M Bot unit) w0 w :
  quiet w0 (snd (c w)) -> quiet w0 (dispatch c w).
Proof.
  intros H. unfold dispatch. destruct (c w) as [[a|e] w']; cbn [snd] in H;
    apply quiet_flush; exact H.
Qed.

Lemma takeAction_quiet (a : option Action) w b :
  bot w = Some b -> quiet w (snd (takeAction a w)).
Proof.
  intros Hb. unfold quiet, pending, takeAction. exec;
    repeat split; eauto; try congruence;
    rewrite playouts_at_app; cbn; lia.
Qed.

Lemma onCellInputBlur_quiet (row col : nat) (v : Js.str) w b :
  bot w = Some b -> quiet w (snd (Grid_onCellInputBlur row col v w)).
Proof.
  intros Hb. unfold Grid_onCellInputBlur, grid_cell, bind at 1.
  exec1.
  destruct (nth_error (grid (state w)) row) as [r|]; [|exact (quiet_refl w b Hb)].
  destruct (nth_error r col) as [c|]; [|exact (quiet_refl w b Hb)].
  exec1. destruct (player c); [exact (quiet_refl w b Hb)|].
  destruct (_ || _); [exact (quiet_refl w b Hb)|].
  exact (takeAction_quiet _ w b Hb).
Qed.

Lemma quiet_trans w w1 w2 : quiet w w1 -> quiet w1 w2 -> quiet w w2.
Proof.
  unfold quiet. intros (A1 & A2 & A3 & A4 & A5) (B1 & B2 & B3 & B4 & B5).
  repeat split; try congruence; auto.
Qed.

Lemma Cell_onBlur_quiet (row col : nat) (v : Js.str) w b :
  bot w = Some b -> quiet w (snd (Cell_onBlur row col v w)).
Proof.
  intros Hb. pose proof (onCellInputBlur_quiet row col v w b Hb) as HG.
  unfold Cell_onBlur. exec1.
  destruct (Regex.test legalActionRegex (contents w row col)).
  - destruct (Grid_onCellInputBlur row col v w) as [[a|e] w1]; exec1; exact HG.
  - exec1. exact (quiet_refl w b Hb).
Qed.

Lemma Cell_onChange_quiet (row col : nat) (v : Js.str) w b :
  bot w = Some b -> quiet w (snd (Cell_onChange row col v w)).
Proof.
  intros Hb. unfold Cell_onChange, Grid_onCellInputChange. exec1.
  destruct (negb (Regex.test legalActionRegex v)); exec1; exact (quiet_refl w b Hb).
Qed.

Lemma takeBotAction_run (n : nat) w b :
  bot w = Some b ->
  takeBotAction n w
  = let w1 :=
      set_now (now w + MIN_PLAYOUTS_MS)%Z
        (set_bot (Some (Nat.iter n playout b))
           (set_calls (calls w ++ repeat (CallPlayout InTakeBotAction) n) w)) in
    match get_best_action (Nat.iter n playout b) with
    | None => (Ret tt, set_shouldPonder false w1)
    | Some edge => takeAction (Some (action edge)) w1
    end.
Proof.
  intros Hb. unfold takeBotAction. unfold bind at 1.
  rewrite (playout_loop_spec _ _ n w b Hb). exec1.
  destruct (get_best_action (Nat.iter n playout b)); reflexivity.
Qed.

Lemma takeBotAction_quiet (n : nat) w b :
  bot w = Some b -> quiet w (snd (takeBotAction n w)).
Proof.
  intros Hb. rewrite (takeBotAction_run n w b Hb). cbn zeta.
  assert (H1 : quiet w
            (set_now (now w + MIN_PLAYOUTS_MS)%Z
               (set_bot (Some (Nat.iter n playout b))
                  (set_calls (calls w ++ repeat (CallPlayout InTakeBotAction) n) w)))).
  { unfold quiet, pending. exec1. repeat split; eauto.
    rewrite playouts_at_app, playouts_at_repeat_other. lia. }
  destruct (get_best_action (Nat.iter n playout b)) as [edge|].
  - eapply quiet_trans; [exact H1|]. eapply takeAction_quiet. reflexivity.
  - cbn [snd]. unfold quiet, pending in *. exec1. tauto.
Qed.

Lemma componentWillUnmount_quiet w b :
  bot w = Some b ->
  quiet w (snd (componentWillUnmount w))
  /\ shouldPonder (snd (componentWillUnmount w)) = false.
Proof.
  intros Hb. unfold componentWillUnmount, quiet, pending. exec1.
  rewrite Hb. exec1. repeat split; eauto.
  rewrite playouts_at_app. cbn. lia.
Qed.

(** A pondering cycle that finds the flag down or the session finished
    returns at once. *)
Lemma ponder_stop (n : nat) w b :
  bot w = Some b ->
  shouldPonder w = false \/ is_finished b = true ->
  fst (ponder n w) = Ret tt
  /\ quiet w (snd (ponder n w))
  /\ shouldPonder (snd (ponder n w)) = false
  /\ calls (snd (ponder n w)) = calls w
  /\ timers (snd (ponder n w)) = timers w
  /\ state (snd (ponder n w)) = state w
  /\ bot (snd (ponder n w)) = bot w.
Proof.
  intros Hb Hstop. unfold ponder, quiet, pending. exec1.
  destruct (shouldPonder w) eqn:Hs; cbn [negb]; exec1.
  - rewrite Hb. exec1. destruct Hstop as [Hf|Hf]; [discriminate|].
    rewrite Hf. exec1. repeat split; eauto.
  - repeat split; eauto.
Qed.

(** A pondering cycle that finds the flag up and the session unfinished
    runs its playouts, refreshes the estimate and schedules its successor. *)
Lemma ponder_go (n : nat) w b :
  bot w = Some b -> shouldPonder w = true -> is_finished b = false ->
  let w1 :=
    set_console (console w ++ [LogPlayouts n PONDER_MS])
      (set_now (now w + PONDER_MS)%Z
         (set_bot (Some (Nat.iter n playout b))
            (set_calls (calls w ++ repeat (CallPlayout InPonder) n) w))) in
  ponder n w
  = (Ret tt,
     let w2 := snd (setState_winProb (getWinProb w1) w1) in
     set_timers (timers w2 ++ [(now w2 + PONDER_INTERVAL, CbPonder)%Z]) w2).
Proof.
  intros Hb Hs Hf. unfold ponder. exec1.
  rewrite Hs. cbn [negb]. rewrite Hb. exec1. rewrite Hf.
  rewrite (playout_loop_spec _ _ n w b Hb). exec1.
  destruct (lifecycle w); reflexivity.
Qed.

Lemma ponder_go_effects (n : nat) w b :
  bot w = Some b -> shouldPonder w = true -> is_finished b = false ->
  lifecycle (snd (ponder n w)) = lifecycle w
  /\ bot (snd (ponder n w)) = Some (Nat.iter n playout b)
  /\ pending CbPonder (snd (ponder n w)) = S (pending CbPonder w)
  /\ shouldPonder (snd (ponder n w)) = true
  /\ playouts_at InPonder (calls (snd (ponder n w)))
     = playouts_at InPonder (calls w) + n
  /\ timers (snd (ponder n w))
     = timers w ++ [(now w + PONDER_MS + PONDER_INTERVAL, CbPonder)%Z].
Proof.
  intros Hb Hs Hf. rewrite (ponder_go n w b Hb Hs Hf). cbn zeta. cbn [snd].
  unfold pending. exec1.
  destruct (lifecycle w) eqn:Hl; exec1; rewrite ?Hl;
    repeat split; auto;
    rewrite ?count_cb_app, ?playouts_at_app, ?playouts_at_repeat_same; cbn; lia.
Qed.

Lemma componentDidMount_run (n : nat) w :
  lifecycle w = Mounted ->
  componentDidMount n w
  = let b0 := wasm_new (nrows w) (ncols w) HUMAN_PLAYER in
    let wb :=
      set_bot (Some b0)
        (set_calls (calls w ++ [CallNew (nrows w) (ncols w) HUMAN_PLAYER]) w) in
    ponder n (set_shouldPonder true
                (set_dirty true (set_state (getGameState wb) wb))).
Proof.
  intros Hl. unfold componentDidMount. exec1. rewrite Hl. reflexivity.
Qed.

Lemma wf_quiet w w' :
  wf w -> lifecycle w <> Constructed -> quiet w w' -> wf w'.
Proof.
  unfold wf, quiet.
  intros (W1 & W2 & W3 & W4) Hl (Q1 & Q2 & Q3 & Q4 & Q5).
  rewrite Q1, Q3. repeat split; auto; try tauto.
Qed.

Lemma wf_bot w : wf w -> lifecycle w <> Constructed -> exists b, bot w = Some b.
Proof. unfold wf. tauto. Qed.

Lemma has_cell_mounted w (row col : nat) :
  has_cell w row col = true -> lifecycle w = Mounted.
Proof. unfold has_cell. destruct (lifecycle w); congruence. Qed.

Lemma wf_init (r c : nat) : wf (init r c : World Bot).
Proof. unfold wf, init, pending. cbn. repeat split; auto; congruence. Qed.

Lemma wf_mount (n : nat) w :
  wf w -> lifecycle w = Constructed ->
  wf (dispatch (componentDidMount n) (set_lifecycle Mounted w)).
Proof.
  intros (W1 & _) Hl. destruct (W1 Hl) as [Ht _].
  set (w0 := set_lifecycle Mounted w).
  assert (H0 : lifecycle w0 = Mounted) by reflexivity.
  pose proof (componentDidMount_run n w0 H0) as Hrun. cbn zeta in Hrun.
  set (b0 := wasm_new (nrows w0) (ncols w0) HUMAN_PLAYER) in *.
  set (w3 := set_shouldPonder true _) in Hrun.
  assert (Hb3 : bot w3 = Some b0) by reflexivity.
  assert (Ht3 : pending CbPonder w3 = 0).
  { unfold pending, w3, w0. exec1. rewrite Ht. reflexivity. }
  assert (Hl3 : lifecycle w3 = Mounted) by reflexivity.
  assert (Hw : lifecycle (snd (ponder n w3)) = Mounted
               /\ (exists b, bot (snd (ponder n w3)) = Some b)
               /\ pending CbPonder (snd (ponder n w3)) <= 1).
  { destruct (is_finished b0) eqn:Hf.
    - destruct (ponder_stop n w3 b0 Hb3 (or_intror Hf))
        as (_ & (Q1 & Q2 & Q3 & _) & _).
      rewrite Q1, Q3, Ht3. auto.
    - destruct (ponder_go_effects n w3 b0 Hb3 eq_refl Hf)
        as (Q1 & Q2 & Q3 & _).
      rewrite Q1, Q2, Q3, Ht3. eauto. }
  unfold dispatch. rewrite Hrun.
  destruct (ponder n w3) as [[a|e] w4]; cbn [snd] in Hw;
    destruct Hw as (L & B & P);
    match goal with
    | |- wf (flush ?x) =>
        destruct (flush_effects x) as (F1 & F2 & _ & _ & _ & _ & _ & F8)
    end;
    unfold wf; rewrite F1, F2, F8; unfold pending in *; exec1;
    rewrite L; repeat split; auto; congruence.
Qed.

Lemma wf_timer (n : nat) w (cb : Callback) (rest : list (Z * Callback)) :
  wf w -> next_timer w = Some (cb, rest) ->
  wf (dispatch (run_callback cb n) (set_timers rest w)).
Proof.
  intros Hwf Hn. pose proof (next_timer_count w cb rest Hn) as Hc.
  pose proof (next_timer_nonempty w _ Hn) as Hne.
  assert (Hl : lifecycle w <> Constructed).
  { intros Hl. destruct Hwf as (W1 & _). destruct (W1 Hl). contradiction. }
  destruct (wf_bot w Hwf Hl) as [b Hb].
  pose proof Hwf as (W1 & W2 & W3 & W4).
  set (w1 := set_timers rest w).
  assert (Hb1 : bot w1 = Some b) by exact Hb.
  destruct cb; cbn [run_callback].
  - (* a pondering cycle *)
    assert (P1 : pending CbPonder w1 = 0).
    { unfold pending, w1 in *. exec1. lia. }
    assert (Hw : lifecycle (snd (ponder n w1)) = lifecycle w
               /\ (exists b', bot (snd (ponder n w1)) = Some b')
               /\ pending CbPonder (snd (ponder n w1)) <= 1
               /\ (lifecycle w <> Mounted ->
                   shouldPonder (snd (ponder n w1)) = false)).
    { destruct (shouldPonder w) eqn:Hs.
      - destruct (is_finished b) eqn:Hf.
        + destruct (ponder_stop n w1 b Hb1 (or_intror Hf))
            as (_ & (Q1 & Q2 & Q3 & _) & Q4 & _).
          rewrite Q1, Q3, P1. auto.
        + destruct (ponder_go_effects n w1 b Hb1 Hs Hf)
            as (Q1 & Q2 & Q3 & _).
          rewrite Q1, Q2, Q3, P1. repeat split; eauto.
          intros Hm. specialize (W3 Hm). congruence.
      - destruct (ponder_stop n w1 b Hb1 (or_introl Hs))
          as (_ & (Q1 & Q2 & Q3 & _) & Q4 & _).
        rewrite Q1, Q3, P1. auto. }
    unfold dispatch.
    destruct (ponder n w1) as [[a|e] w2]; cbn [snd] in Hw;
      destruct Hw as (L & B & P & S3);
      match goal with
      | |- wf (flush ?x) =>
          destruct (flush_effects x) as (F1 & F2 & _ & F4 & _ & _ & _ & F8)
      end;
      unfold wf; rewrite F1, F2, F4, F8; unfold pending in *; exec1;
      rewrite L; repeat split; auto; tauto.
  - (* the agent's move *)
    apply wf_quiet with (w := w); [exact Hwf|exact Hl|].
    apply quiet_dispatch.
    assert (Q0 : quiet w w1).
    { unfold quiet, pending, w1 in *. exec1. repeat split; eauto. lia. }
    eapply quiet_trans; [exact Q0|]. exact (takeBotAction_quiet n w1 b Hb1).
Qed.

Lemma step_wf (ev : Event) w : wf w -> wf (step ev w).
Proof.
  intros Hwf. destruct ev as [n|row col text|row col|n|ms|]; cbn [step].
  - destruct (lifecycle w) eqn:Hl; auto. apply wf_mount; assumption.
  - destruct (has_cell w row col) eqn:Hc; auto.
    pose proof (has_cell_mounted w row col Hc) as Hl.
    assert (Hl' : lifecycle w <> Constructed) by congruence.
    destruct (wf_bot w Hwf Hl') as [b Hb].
    apply wf_quiet with (w := w); auto.
    apply quiet_dispatch. exact (Cell_onChange_quiet row col text w b Hb).
  - destruct (has_cell w row col) eqn:Hc; auto.
    pose proof (has_cell_mounted w row col Hc) as Hl.
    assert (Hl' : lifecycle w <> Constructed) by congruence.
    destruct (wf_bot w Hwf Hl') as [b Hb].
    apply wf_quiet with (w := w); auto.
    apply quiet_dispatch. exact (Cell_onBlur_quiet row col _ w b Hb).
  - destruct (next_timer w) as [[cb rest]|] eqn:Hn; auto.
    apply wf_timer; assumption.
  - destruct Hwf as (W1 & W2 & W3 & W4). unfold wf, pending in *. exec1. tauto.
  - destruct (lifecycle w) eqn:Hl; auto.
    assert (Hl' : lifecycle w <> Constructed) by congruence.
    destruct (wf_bot w Hwf Hl') as [b Hb].
    destruct (componentWillUnmount_quiet w b Hb) as [Q S0].
    pose proof (quiet_dispatch _ w w Q) as (Q1 & Q2 & Q3 & Q4 & Q5).
    assert (S1 : shouldPonder (dispatch componentWillUnmount w) = false).
    { unfold dispatch.
      destruct (componentWillUnmount w) as [[a|e] w1]; cbn [snd] in S0;
        match goal with
        | |- shouldPonder (flush ?x) = _ =>
            destruct (flush_effects x) as (_ & _ & _ & F4 & _)
        end; rewrite F4; exact S0. }
    destruct Hwf as (W1 & W2 & W3 & W4).
    unfold wf, pending in *. exec1.
    repeat split; auto; try congruence; lia.
Qed.

Lemma run_wf (evs : list Event) : forall w, wf w -> wf (run evs w).
Proof.
  induction evs as [|ev evs IH]; intros w Hwf; [exact Hwf|].
  cbn [run fold_left]. apply IH. apply step_wf. exact Hwf.
Qed.

Lemma halted_quiet w w' :
  halted w -> quiet w w' ->
  halted w'
  /\ playouts_at InPonder (calls w') = playouts_at InPonder (calls w).
Proof.
  unfold halted, quiet. intros (H1 & H2 & H3) (Q1 & Q2 & Q3 & Q4 & Q5).
  rewrite Q1, Q3. auto.
Qed.

Lemma step_halted (ev : Event) w :
  wf w -> halted w ->
  halted (step ev w)
  /\ playouts_at InPonder (calls (step ev w)) = playouts_at InPonder (calls w).
Proof.
  intros Hwf Hh. pose proof Hh as (Hl & Hp & Hs).
  destruct (wf_bot w Hwf Hl) as [b Hb].
  destruct ev as [n|row col text|row col|n|ms|]; cbn [step].
  - destruct (lifecycle w); [congruence|auto|auto].
  - destruct (has_cell w row col); auto.
    apply halted_quiet; auto. apply quiet_dispatch.
    exact (Cell_onChange_quiet row col text w b Hb).
  - destruct (has_cell w row col); auto.
    apply halted_quiet; auto. apply quiet_dispatch.
    exact (Cell_onBlur_quiet row col _ w b Hb).
  - destruct (next_timer w) as [[cb rest]|] eqn:Hn; auto.
    pose proof (next_timer_count w cb rest Hn) as Hc.
    destruct cb; [lia|].
    apply halted_quiet; auto. apply quiet_dispatch.
    assert (Q0 : quiet w (set_timers rest w)).
    { unfold quiet, pending in *. exec1. repeat split; eauto. lia. }
    eapply quiet_trans; [exact Q0|].
    exact (takeBotAction_quiet n (set_timers rest w) b Hb).
  - unfold halted, pending in *. exec1. auto.
  - destruct (lifecycle w) eqn:Hm; auto.
    destruct (componentWillUnmount_quiet w b Hb) as [Q _].
    pose proof (quiet_dispatch _ w w Q) as Q'.
    destruct (halted_quiet w _ Hh Q') as ((A1 & A2 & A3) & A4).
    unfold halted, pending in *. exec1. repeat split; auto. congruence.
Qed.

Lemma run_halted (evs : list Event) : forall w,
  wf w -> halted w ->
  halted (run evs w)
  /\ playouts_at InPonder (calls (run evs w)) = playouts_at InPonder (calls w).
Proof.
  induction evs as [|ev evs IH]; intros w Hwf Hh; [auto|].
  cbn [run fold_left].
  destruct (step_halted ev w Hwf Hh) as [Hh' Hc].
  destruct (IH (step ev w) (step_wf ev w Hwf) Hh') as [Hh'' Hc'].
  split; [exact Hh''|]. unfold run in Hc'. congruence.
Qed.

(** C7. Take any world that the component reaches in which the next task
    is a pondering cycle, and let that cycle find [shouldPonder] false or
    the session finished.  The cycle returns without a playout and without a
    successor; and whatever happens afterwards, no pondering cycle is ever
    pending again, the pondering loop runs no further playout, and
    [shouldPonder] stays false. *)
Theorem ponder_halt_is_permanent (r c : nat) (evs evs' : list Event)
      (n : nat) (rest : list (Z * Callback)) :
  let w := run evs (init r c) in
  next_timer w = Some (CbPonder, rest) ->
  (shouldPonder w = false
   \/ exists b, bot w = Some b /\ is_finished b = true) ->
  let w1 := step (EvTimer n) w in
  let w2 := run evs' w1 in
  (calls w1 = calls w /\ pending CbPonder w1 = 0 /\ shouldPonder w1 = false)
  /\ (pending CbPonder w2 = 0
      /\ shouldPonder w2 = false
      /\ playouts_at InPonder (calls w2) = playouts_at InPonder (calls w)).
Proof.
  intros w Hn Hstop w1 w2.
  assert (Hwf : wf w) by (apply run_wf, wf_init).
  pose proof (next_timer_count w _ _ Hn) as Hc.
  pose proof (next_timer_nonempty w _ Hn) as Hne.
  assert (Hl : lifecycle w <> Constructed).
  { intros Hl. destruct Hwf as (W1 & _). destruct (W1 Hl). contradiction. }
  destruct (wf_bot w Hwf Hl) as [b Hb].
  assert (Hstop' : shouldPonder (set_timers rest w) = false
                   \/ is_finished b = true).
  { destruct Hstop as [Hs|(b' & Hb' & Hf)]; [left; exact Hs|right].
    rewrite Hb in Hb'. injection Hb' as <-. exact Hf. }
  destruct (ponder_stop n (set_timers rest w) b Hb Hstop')
    as (Hret & (Q1 & Q2 & Q3 & Q4 & Q5) & S1 & C1 & T1 & _).
  assert (Hw1 : w1 = flush (snd (ponder n (set_timers rest w)))).
  { unfold w1. cbn [step]. rewrite Hn. cbn [run_callback]. unfold dispatch.
    destruct (ponder n (set_timers rest w)) as [[a|e] w'];
      [reflexivity|discriminate Hret]. }
  destruct (flush_effects (snd (ponder n (set_timers rest w))))
    as (F1 & F2 & _ & F4 & F5 & _ & _ & F8).
  assert (P0 : pending CbPonder w1 = 0).
  { rewrite Hw1, F8, Q3. destruct Hwf as (_ & _ & _ & W4).
    unfold pending in *. exec1. lia. }
  assert (S0 : shouldPonder w1 = false) by (rewrite Hw1, F4; exact S1).
  assert (C0 : calls w1 = calls w) by (rewrite Hw1, F5; exact C1).
  assert (Hh : halted w1).
  { unfold halted. repeat split; auto. rewrite Hw1, F1, Q1. exact Hl. }
  assert (Hwf1 : wf w1) by (apply step_wf; exact Hwf).
  destruct (run_halted evs' w1 Hwf1 Hh) as ((_ & P2 & S2) & C2).
  repeat split; auto. fold w2 in C2. rewrite C2, C0. reflexivity.
Qed.

(** The same when the first cycle, the one that [componentDidMount] calls,
    finds the session finished. *)
Lemma ponder_halt_at_mount_is_permanent (r c n : nat) (evs' : list Event) :
  is_finished (wasm_new r c HUMAN_PLAYER) = true ->
  let w2 := run evs' (step (EvMount n) (init r c)) in
  pending CbPonder w2 = 0
  /\ shouldPonder w2 = false
  /\ playouts_at InPonder (calls w2) = 0.
Proof.
  intros Hf w2.
  set (w0 := set_lifecycle Mounted (init r c : World Bot)).
  assert (Hstep : step (EvMount n) (init r c) = dispatch (componentDidMount n) w0)
    by reflexivity.
  pose proof (componentDidMount_run n w0 eq_refl) as Hrun. cbn zeta in Hrun.
  set (w3 := set_shouldPonder true _) in Hrun.
  destruct (ponder_stop n w3 (wasm_new r c HUMAN_PLAYER) eq_refl (or_intror Hf))
    as (Hret & (Q1 & Q2 & Q3 & _) & S1 & C1 & _).
  assert (Hw1 : step (EvMount n) (init r c) = flush (snd (ponder n w3))).
  { rewrite Hstep. unfold dispatch. rewrite Hrun.
    destruct (ponder n w3) as [[a|e] w']; [reflexivity|discriminate Hret]. }
  destruct (flush_effects (snd (ponder n w3)))
    as (F1 & F2 & _ & F4 & F5 & _ & _ & F8).
  assert (Hh : halted (step (EvMount n) (init r c))).
  { rewrite Hw1. unfold halted.
    split; [rewrite F1, Q1; discriminate|].
    split; [rewrite F8, Q3; reflexivity|]. rewrite F4. exact S1. }
  assert (Hwf : wf (step (EvMount n) (init r c))) by apply step_wf, wf_init.
  destruct (run_halted evs' _ Hwf Hh) as ((_ & P2 & S2) & C2).
  fold w2 in P2, S2, C2. repeat split; auto.
  rewrite C2, Hw1, F5, C1. reflexivity.
Qed.

End LoopFacts.

(* ------------------------------------------------------------------ *)
(** ** The estimate and the snapshot *)

Section Mirror.

Context {Bot : Type} {E : WasmBot Bot}.

Implicit Types (w : World Bot) (b : Bot).

Lemma is_player_eq (x : option nat) (p : nat) :
  is_player x p = true -> x = Some p.
Proof.
  destruct x as [q|]; cbn; [|discriminate].
  intros H. apply Nat.eqb_eq in H. congruence.
Qed.

Lemma getWinProb_some w (p : Js.number) :
  getWinProb w = Some p ->
  exists b, bot w = Some b
            /\ get_active_player b = Some HUMAN_PLAYER
            /\ get_best_action b <> None.
Proof.
  unfold getWinProb. destruct (bot w) as [b|]; [|discriminate].
  destruct (is_player (get_active_player b) HUMAN_PLAYER) eqn:Ha;
    cbn [negb]; [|discriminate].
  destruct (get_best_action b) eqn:He; [|discriminate].
  intros _. exists b.
  split; [reflexivity|split; [apply is_player_eq; exact Ha|congruence]].
Qed.

Lemma getWinProb_no_recommendation w b :
  bot w = Some b -> get_best_action b = None -> getWinProb w = None.
Proof.
  intros Hb Hn. unfold getWinProb. rewrite Hb, Hn.
  destruct (negb _); reflexivity.
Qed.

Lemma getGameState_mirror w :
  (winProb (getGameState w) <> None ->
   activePlayer (getGameState w) = Some HUMAN_PLAYER)
  /\ (forall b, bot w = Some b ->
                activePlayer (getGameState w) = get_active_player b).
Proof.
  split.
  - cbn [getGameState winProb activePlayer].
    destruct (getWinProb w) as [p|] eqn:Hp; [|congruence]. intros _.
    destruct (getWinProb_some w p Hp) as (b & Hb & Ha & _).
    rewrite Hb. exact Ha.
  - intros b Hb. cbn [getGameState activePlayer]. rewrite Hb. reflexivity.
Qed.

Lemma mirror_frame w w' :
  state w' = state w ->
  (lifecycle w' = Mounted -> lifecycle w = Mounted) ->
  (forall b, bot w = Some b ->
             exists b', bot w' = Some b'
                        /\ get_active_player b' = get_active_player b) ->
  mirror w -> mirror w'.
Proof.
  unfold mirror. intros Hs Hl Hb (M1 & M2). rewrite Hs. split; [exact M1|].
  intros Hm. destruct (M2 (Hl Hm)) as (b & Hb0 & Ha).
  destruct (Hb b Hb0) as (b' & Hb' & Ha'). exists b'. split; congruence.
Qed.

Lemma mirror_rebuilt w b :
  bot w = Some b -> mirror (set_dirty true (set_state (getGameState w) w)).
Proof.
  intros Hb. destruct (getGameState_mirror w) as [G1 G2].
  unfold mirror. exec1. split; [exact G1|]. intros _. eauto.
Qed.

Lemma takeAction_mirror (a : option Action) w :
  mirror w -> mirror (snd (takeAction a w)).
Proof.
  intros Hm. destruct a as [a|]; [|exact Hm].
  destruct (bot w) as [b|] eqn:Hb.
  - destruct (place b (a_row a) (a_col a) (a_guess a)) as [msg|b'] eqn:Hp.
    + rewrite (takeAction_reject w b a msg Hb Hp). cbn [snd].
      apply (mirror_frame w); auto. intros b0 Hb0. exists b0. auto.
    + rewrite (takeAction_accept w b b' a Hb Hp). cbn zeta.
      set (w1 := set_bot (Some b') _).
      unfold setState. exec1. change (lifecycle w1) with (lifecycle w).
      destruct (lifecycle w) eqn:Hl; cbn beta iota; cbn [snd].
      * destruct Hm as (M1 & M2). unfold mirror, w1. exec1. rewrite Hl.
        split; [exact M1|discriminate].
      * exact (mirror_rebuilt w1 b' eq_refl).
      * destruct Hm as (M1 & M2). unfold mirror, w1. exec1. rewrite Hl.
        split; [exact M1|discriminate].
  - rewrite (takeAction_no_bot w a Hb). exact Hm.
Qed.

Lemma onCellInputBlur_mirror (row col : nat) (v : Js.str) w :
  mirror w -> mirror (snd (Grid_onCellInputBlur row col v w)).
Proof.
  intros Hm. unfold Grid_onCellInputBlur, grid_cell, bind at 1. exec1.
  destruct (nth_error (grid (state w)) row) as [r|]; [|exact Hm].
  destruct (nth_error r col) as [c|]; [|exact Hm].
  exec1. destruct (player c); [exact Hm|].
  destruct (_ || _); [exact Hm|].
  apply takeAction_mirror. exact Hm.
Qed.

Lemma Cell_onBlur_mirror (row col : nat) (v : Js.str) w :
  mirror w -> mirror (snd (Cell_onBlur row col v w)).
Proof.
  intros Hm. pose proof (onCellInputBlur_mirror row col v w Hm) as HG.
  unfold Cell_onBlur. exec1.
  destruct (Regex.test legalActionRegex (contents w row col)).
  - destruct (Grid_onCellInputBlur row col v w) as [[a|e] w1]; exec1; exact HG.
  - exec1. exact Hm.
Qed.

Lemma Cell_onChange_mirror (row col : nat) (v : Js.str) w :
  mirror w -> mirror (snd (Cell_onChange row col v w)).
Proof.
  intros Hm. unfold Cell_onChange, Grid_onCellInputChange. exec1.
  destruct (negb (Regex.test legalActionRegex v)); exec1; exact Hm.
Qed.

Lemma mirror_dispatch (c : M Bot unit) w :
  mirror (snd (c w)) -> mirror (dispatch c w).
Proof.
  intros H. unfold dispatch.
  destruct (c w) as [[a|e] w']; cbn [snd] in H;
    match goal with
    | |- mirror (flush ?x) =>
        destruct (flush_effects x) as (F1 & F2 & F3 & _);
        apply (mirror_frame w' (flush x)); auto;
        [rewrite F1; auto | intros b0 Hb0; exists b0; rewrite F2; auto]
    end.
Qed.

Lemma dispatch_state (c : M Bot unit) w :
  state (dispatch c w) = state (snd (c w)).
Proof.
  unfold dispatch. destruct (c w) as [[a|e] w'];
    match goal with
    | |- state (flush ?x) = _ =>
        destruct (flush_effects x) as (_ & _ & F3 & _); rewrite F3
    end; reflexivity.
Qed.

Context {C : EngineContract Bot}.

Lemma playouts_active (n : nat) b :
  get_active_player (Nat.iter n playout b) = get_active_player b.
Proof.
  induction n as [|n IH]; [reflexivity|].
  cbn [Nat.iter nat_rect]. change (nat_rect _ b (fun _ => playout) n)
    with (Nat.iter n playout b).
  rewrite playout_active. exact IH.
Qed.

Lemma ponder_mirror (n : nat) w b :
  bot w = Some b -> mirror w -> mirror (snd (ponder n w)).
Proof.
  intros Hb Hm.
  destruct (shouldPonder w) eqn:Hs; [destruct (is_finished b) eqn:Hf|].
  - destruct (ponder_stop n w b Hb (or_intror Hf))
      as (_ & (Q1 & _) & _ & _ & _ & S & B).
    apply (mirror_frame w); auto; [congruence|].
    intros b0 Hb0. exists b0. split; congruence.
  - rewrite (ponder_go n w b Hb Hs Hf). cbn zeta. cbn [snd].
    set (w1 := set_console _ _).
    assert (Hb1 : bot w1 = Some (Nat.iter n playout b)) by reflexivity.
    destruct Hm as (M1 & M2). unfold mirror. exec1.
    change (lifecycle w1) with (lifecycle w).
    change (state w1) with (state w).
    destruct (lifecycle w) eqn:Hl; exec1;
      change (lifecycle w1) with (lifecycle w); rewrite ?Hl.
    + split; [exact M1|discriminate].
    + destruct (M2 eq_refl) as (b0 & Hb0 & Ha).
      rewrite Hb in Hb0. injection Hb0 as <-.
      cbn [winProb activePlayer]. split.
      * destruct (getWinProb w1) as [p|] eqn:Hp; [|congruence]. intros _.
        destruct (getWinProb_some w1 p Hp) as (b1 & Hb1' & Ha1 & _).
        rewrite Hb1 in Hb1'. injection Hb1' as <-.
        rewrite playouts_active in Ha1. congruence.
      * intros _. exists (Nat.iter n playout b). split; [reflexivity|].
        rewrite playouts_active. exact Ha.
    + split; [exact M1|discriminate].
  - destruct (ponder_stop n w b Hb (or_introl Hs))
      as (_ & (Q1 & _) & _ & _ & _ & S & B).
    apply (mirror_frame w); auto; [congruence|].
    intros b0 Hb0. exists b0. split; congruence.
Qed.

Lemma takeBotAction_mirror (n : nat) w b :
  bot w = Some b -> mirror w -> mirror (snd (takeBotAction n w)).
Proof.
  intros Hb Hm. rewrite (takeBotAction_run n w b Hb). cbn zeta.
  set (w1 := set_now _ _).
  assert (H1 : mirror w1).
  { apply (mirror_frame w); auto.
    intros b0 Hb0. rewrite Hb in Hb0. injection Hb0 as <-.
    exists (Nat.iter n playout b). split; [reflexivity|apply playouts_active]. }
  destruct (get_best_action (Nat.iter n playout b)) as [edge|].
  - apply takeAction_mirror. exact H1.
  - cbn [snd]. apply (mirror_frame w1); auto. intros b0 Hb0. eauto.
Qed.

Lemma mirror_init (r c : nat) : mirror (init r c : World Bot).
Proof. unfold mirror, init. cbn. split; [congruence|discriminate]. Qed.

Lemma step_mirror (ev : Event) w : wf w -> mirror w -> mirror (step ev w).
Proof.
  intros Hwf Hm. destruct ev as [n|row col text|row col|n|ms|]; cbn [step].
  - destruct (lifecycle w) eqn:Hl; auto.
    apply mirror_dispatch.
    rewrite (componentDidMount_run n (set_lifecycle Mounted w) eq_refl).
    cbn zeta. eapply ponder_mirror; [reflexivity|].
    set (wb := set_bot _ _).
    apply (mirror_frame (set_dirty true (set_state (getGameState wb) wb)));
      auto; [intros b0 Hb0; eauto|].
    eapply mirror_rebuilt. reflexivity.
  - destruct (has_cell w row col); auto.
    apply mirror_dispatch, Cell_onChange_mirror, Hm.
  - destruct (has_cell w row col); auto.
    apply mirror_dispatch, Cell_onBlur_mirror, Hm.
  - destruct (next_timer w) as [[cb rest]|] eqn:Hn; auto.
    pose proof (next_timer_nonempty w _ Hn) as Hne.
    assert (Hl : lifecycle w <> Constructed).
    { intros Hl. destruct Hwf as (W1 & _). destruct (W1 Hl). contradiction. }
    destruct (wf_bot w Hwf Hl) as [b Hb].
    assert (H1 : mirror (set_timers rest w)).
    { apply (mirror_frame w); auto. intros b0 Hb0. eauto. }
    apply mirror_dispatch. destruct cb; cbn [run_callback].
    + exact (ponder_mirror n (set_timers rest w) b Hb H1).
    + exact (takeBotAction_mirror n (set_timers rest w) b Hb H1).
  - apply (mirror_frame w); auto. intros b0 Hb0. eauto.
  - destruct (lifecycle w) eqn:Hl; auto.
    destruct Hm as (M1 & _). unfold mirror.
    assert (Hs : state (dispatch componentWillUnmount w) = state w).
    { rewrite dispatch_state. unfold componentWillUnmount. exec1.
      destruct (bot w); reflexivity. }
    exec1. rewrite Hs. split; [exact M1|discriminate].
Qed.

Lemma run_mirror (evs : list Event) : forall w,
  wf w -> mirror w -> mirror (run evs w).
Proof.
  induction evs as [|ev evs IH]; intros w Hwf Hm; [exact Hm|].
  cbn [run fold_left]. apply IH; [apply step_wf|apply step_mirror]; assumption.
Qed.

(** C6. An estimate that [getWinProb] returns is (1 + score / visits) / 2
    for the engine's current recommendation, and it lies between 0 and 1. *)
Theorem winProb_formula_and_range w (p : Js.number) :
  getWinProb w = Some p ->
  exists b edge,
    bot w = Some b /\ get_best_action b = Some edge
    /\ p = Js.div (Js.add (Js.Fin 1)
                          (Js.div (score edge) (Js.of_Z (visits edge))))
                  (Js.Fin 2)
    /\ exists q : Q, p = Js.Fin q /\ (0 <= q)%Q /\ (q <= 1)%Q.
Proof.
  intros Hp. destruct (winProb_formula w p Hp) as (b & edge & Hb & He & Hf & Hr).
  exists b, edge. repeat split; auto.
  apply Hr. eapply recommendation_normalized. exact He.
Qed.

(** C5. [getWinProb] returns an estimate only when the engine names the
    human as the active player, the session is not finished and there is a
    recommendation; it returns none when there is no recommendation.  In
    every snapshot that the component reaches, an estimate is present only
    when the snapshot names the human as the active participant, and then,
    while the component is mounted, the engine is not finished. *)
Theorem winProb_only_on_human_turn :
  (forall w (p : Js.number),
      getWinProb w = Some p ->
      exists b, bot w = Some b
                /\ get_active_player b = Some HUMAN_PLAYER
                /\ is_finished b = false
                /\ get_best_action b <> None)
  /\ (forall w b,
         bot w = Some b -> get_best_action b = None ->
         getWinProb w = None /\ winProb (getGameState w) = None)
  /\ (forall (r c : nat) (evs : list Event) (p : Js.number),
         let w := run evs (init r c) in
         winProb (state w) = Some p ->
         activePlayer (state w) = Some HUMAN_PLAYER
         /\ (lifecycle w = Mounted ->
             exists b, bot w = Some b
                       /\ get_active_player b = Some HUMAN_PLAYER
                       /\ is_finished b = false)).
Proof.
  assert (Hnf : forall b, get_active_player b = Some HUMAN_PLAYER ->
                          is_finished b = false).
  { intros b Ha. destruct (is_finished b) eqn:Hf; [|reflexivity].
    rewrite (finished_no_active b Hf) in Ha. discriminate. }
  split; [|split].
  - intros w p Hp. destruct (getWinProb_some w p Hp) as (b & Hb & Ha & He).
    exists b. auto.
  - intros w b Hb Hn. split; [|cbn [getGameState winProb]];
      exact (getWinProb_no_recommendation w b Hb Hn).
  - intros r c evs p w Hp.
    assert (Hm : mirror w).
    { apply run_mirror; [apply wf_init|apply mirror_init]. }
    destruct Hm as (M1 & M2).
    assert (Ha : activePlayer (state w) = Some HUMAN_PLAYER)
      by (apply M1; congruence).
    split; [exact Ha|]. intros Hl. destruct (M2 Hl) as (b & Hb & Hab).
    exists b. split; [exact Hb|]. rewrite <- Hab. split; [exact Ha|].
    apply Hnf. congruence.
Qed.

End Mirror.

(* ------------------------------------------------------------------ *)
(** ** Pondering and the agent's move *)

Section Scheduling.

Context {Bot : Type} {E : WasmBot Bot}.

Implicit Types (w : World Bot) (b : Bot).

(** C4. A pondering cycle schedules its successor exactly when it finds
    [shouldPonder] true and the session unfinished; the active participant
    plays no part in it.  The agent's move is one task of its own: within it
    no pondering cycle is scheduled and the pondering loop runs no playout. *)
Theorem ponder_reschedules_whoever_is_to_move w b (n : nat) :
  bot w = Some b ->
  (shouldPonder w = true /\ is_finished b = false ->
   timers (snd (ponder n w))
   = timers w ++ [(now w + PONDER_MS + PONDER_INTERVAL, CbPonder)%Z])
  /\ (shouldPonder w = false \/ is_finished b = true ->
      timers (snd (ponder n w)) = timers w)
  /\ (forall m : nat,
         pending CbPonder (snd (takeBotAction m w)) = pending CbPonder w
         /\ playouts_at InPonder (calls (snd (takeBotAction m w)))
            = playouts_at InPonder (calls w)).
Proof.
  intros Hb. split; [|split].
  - intros [Hs Hf].
    destruct (ponder_go_effects n w b Hb Hs Hf) as (_ & _ & _ & _ & _ & T).
    exact T.
  - intros Hstop.
    destruct (ponder_stop n w b Hb Hstop) as (_ & _ & _ & _ & T & _).
    exact T.
  - intros m. destruct (takeBotAction_quiet m w b Hb) as (_ & _ & P & _ & C).
    split; assumption.
Qed.

End Scheduling.

(* ------------------------------------------------------------------ *)
(** ** The small engine keeps the contract *)

Lemma fake_contract : EngineContract Fake.bot.
Proof.
  split.
  - intros b H. cbn in *. rewrite H. reflexivity.
  - intros b. reflexivity.
  - intros b e. cbn. unfold Fake.best.
    destruct (Fake.finished b || (Fake.nplayouts b <=? 0)%Z) eqn:H0;
      [discriminate|].
    apply orb_false_iff in H0 as [_ Hn]. apply Z.leb_gt in Hn.
    destruct (Fake.first_empty b) as [[r c]|]; [|discriminate].
    intros H. injection H as <-. exists (1 # 2)%Q. cbn [score visits].
    split; [reflexivity|]. split; [exact Hn|].
    unfold Qle, inject_Z; cbn. lia.
Qed.

(* ------------------------------------------------------------------ *)
(** ** Sessions *)

(** C1. Tokens that are neither X nor a digit sequence pass
    [legalActionRegex] and reach [place]: [Xa] is placed as NaN, and [1a1]
    is placed as 1, which this engine accepts.  The superseded pattern
    rejects both. *)
Theorem mixed_tokens_reach_place :
  is_blank_or_digits (Js.lit "Xa") = false
  /\ is_blank_or_digits (Js.lit "1a1") = false
  /\ Regex.test legalActionRegex (Js.lit "Xa") = true
  /\ Regex.test legalActionRegex (Js.lit "1a1") = true
  /\ Regex.test legalActionRegex_legacy (Js.lit "Xa") = false
  /\ Regex.test legalActionRegex_legacy (Js.lit "1a1") = false
  /\ calls (run [EvChange 0 0 (Js.lit "Xa"); EvBlur 0 0] Scenario.mounted)
     = calls Scenario.mounted ++ [CallPlace 0 0 Js.NaN]
  /\ calls (run [EvChange 0 0 (Js.lit "1a1"); EvBlur 0 0] Scenario.mounted)
     = calls Scenario.mounted ++ [CallPlace 0 0 (Js.of_Z 1)]
  /\ nth_error
       (grid (state (run [EvChange 0 0 (Js.lit "1a1"); EvBlur 0 0]
                         Scenario.mounted))) 0
     = Some [{| guess := Some 1%Z; player := Some HUMAN_PLAYER |};
             {| guess := None; player := None |}].
Proof. repeat split; vm_compute; reflexivity. Qed.

Lemma blur_on_filled_cell_is_noop_witness :
  nth_error (grid (state Scenario.round_played)) 0
  = Some [{| guess := Some 3%Z; player := Some HUMAN_PLAYER |};
          {| guess := Some 1%Z; player := Some BOT_PLAYER |}]
  /\ Grid_onCellInputBlur 0 0 (Js.lit "2") Scenario.round_played
     = (Ret tt, Scenario.round_played)
  /\ state (snd (Cell_onBlur 0 0 (Js.lit "2") Scenario.round_played))
     = state Scenario.round_played.
Proof.
  split; [reflexivity|].
  destruct (@blur_on_filled_cell_is_noop Fake.bot Fake.engine
              Scenario.round_played 0 0
              [{| guess := Some 3%Z; player := Some HUMAN_PLAYER |};
               {| guess := Some 1%Z; player := Some BOT_PLAYER |}]
              {| guess := Some 3%Z; player := Some HUMAN_PLAYER |}
              HUMAN_PLAYER (Js.lit "2") eq_refl eq_refl eq_refl)
    as (H1 & _ & (H3 & _) & _).
  split; assumption.
Defined.

(** The agent's own move is not protected: when the engine rejects it, the
    IllegalMoveError leaves [takeBotAction], nothing is written to the
    console, and the error ends up uncaught.  And on the human path the
    error is not caught where [place] is called: it leaves
    [Grid.onCellInputBlur]. *)
Lemma illegal_agent_move_is_not_caught :
  let w := Scenario.stale_bot_to_move in
  let res := @takeBotAction Fake.bot Fake.stale_engine 1 w in
  fst res = Throw (IllegalMoveError "cell is taken")
  /\ console (snd res) = console w
  /\ uncaught (@step Fake.bot Fake.stale_engine (EvTimer 1) w)
     = [IllegalMoveError "cell is taken"]
  /\ fst (Grid_onCellInputBlur 0 1 (Js.lit "9") Scenario.typed_9)
     = Throw (IllegalMoveError "bad value").
Proof. repeat split; vm_compute; reflexivity. Qed.

Lemma illegal_human_move_is_caught_in_Cell_onBlur_witness :
  place {| Fake.rows := 2; Fake.cols := 2; Fake.filled := [];
           Fake.mover := 0; Fake.nplayouts := 3 |} 0 1 (Js.of_Z 9)
  = inl "bad value"%string
  /\ fst (Cell_onBlur 0 1 (Js.lit "9") Scenario.typed_9) = Ret tt
  /\ console (snd (Cell_onBlur 0 1 (Js.lit "9") Scenario.typed_9))
     = console Scenario.typed_9 ++ [LogError (IllegalMoveError "bad value")]
  /\ state (snd (Cell_onBlur 0 1 (Js.lit "9") Scenario.typed_9))
     = state Scenario.typed_9.
Proof.
  split; [reflexivity|].
  destruct (@illegal_human_move_is_caught_in_Cell_onBlur Fake.bot Fake.engine
              Scenario.typed_9
              {| Fake.rows := 2; Fake.cols := 2; Fake.filled := [];
                 Fake.mover := 0; Fake.nplayouts := 3 |}
              0 1
              [{| guess := None; player := None |};
               {| guess := None; player := None |}]
              {| guess := None; player := None |}
              (Js.lit "9") "bad value"%string
              eq_refl eq_refl eq_refl eq_refl eq_refl eq_refl eq_refl)
    as (_ & H2 & (H3 & H4 & _) & _).
  repeat split; assumption.
Defined.

(** The pondering cycle that was due before a late commit runs first: it
    finds the agent active and its move pending, runs its playouts and
    schedules its successor. *)
Lemma ponder_runs_and_reschedules_on_agent_turn :
  let w := Scenario.late_commit in
  let w' := step (EvTimer 5) w in
  activePlayer (state w) = Some BOT_PLAYER
  /\ timers w = [(1152, CbPonder); (1158, CbTakeBotAction)]%Z
  /\ next_timer w = Some (CbPonder, [(1158, CbTakeBotAction)]%Z)
  /\ playouts_at InPonder (calls w') = playouts_at InPonder (calls w) + 5
  /\ activePlayer (state w') = Some BOT_PLAYER
  /\ timers w' = [(1158, CbTakeBotAction); (2310, CbPonder)]%Z.
Proof. repeat split; vm_compute; reflexivity. Qed.

Lemma ponder_reschedules_whoever_is_to_move_witness :
  let w := set_timers [(1158, CbTakeBotAction)]%Z Scenario.late_commit in
  bot w = Some {| Fake.rows := 2; Fake.cols := 2;
                  Fake.filled := [(0, 0, (3%Z, 0))];
                  Fake.mover := 1; Fake.nplayouts := 0 |}
  /\ get_active_player
       {| Fake.rows := 2; Fake.cols := 2;
          Fake.filled := [(0, 0, (3%Z, 0))];
          Fake.mover := 1; Fake.nplayouts := 0 |} = Some BOT_PLAYER
  /\ timers (snd (ponder 5 w))
     = timers w ++ [(now w + PONDER_MS + PONDER_INTERVAL, CbPonder)%Z].
Proof.
  intros w. split; [reflexivity|]. split; [reflexivity|].
  apply (@ponder_reschedules_whoever_is_to_move Fake.bot Fake.engine w
           {| Fake.rows := 2; Fake.cols := 2;
              Fake.filled := [(0, 0, (3%Z, 0))];
              Fake.mover := 1; Fake.nplayouts := 0 |} 5 eq_refl).
  split; reflexivity.
Defined.

Lemma winProb_only_on_human_turn_witness :
  winProb (state Scenario.mounted) = Some (Js.Fin (7 # 12))
  /\ activePlayer (state Scenario.mounted) = Some HUMAN_PLAYER
  /\ winProb (state Scenario.bot_to_move) = None.
Proof.
  split; [reflexivity|]. split; [|reflexivity].
  apply (proj2 (proj2 (@winProb_only_on_human_turn Fake.bot Fake.engine
                         fake_contract))
           2 2 [EvMount 3] (Js.Fin (7 # 12))).
  reflexivity.
Defined.

Lemma winProb_formula_and_range_witness :
  getWinProb Scenario.mounted = Some (Js.Fin (7 # 12))
  /\ exists b edge,
       bot Scenario.mounted = Some b /\ get_best_action b = Some edge
       /\ Js.Fin (7 # 12)
          = Js.div (Js.add (Js.Fin 1)
                           (Js.div (score edge) (Js.of_Z (visits edge))))
                   (Js.Fin 2)
       /\ exists q : Q, Js.Fin (7 # 12) = Js.Fin q /\ (0 <= q)%Q /\ (q <= 1)%Q.
Proof.
  split; [reflexivity|].
  apply (@winProb_formula_and_range Fake.bot Fake.engine fake_contract
           Scenario.mounted (Js.Fin (7 # 12))).
  reflexivity.
Defined.

Lemma ponder_halt_is_permanent_witness :
  let w := Scenario.full_board in
  let w2 := run [EvWait 5000; EvTimer 3; EvBlur 0 0] (step (EvTimer 4) w) in
  next_timer w = Some (CbPonder, [])
  /\ pending CbPonder w2 = 0
  /\ shouldPonder w2 = false
  /\ playouts_at InPonder (calls w2) = playouts_at InPonder (calls w).
Proof.
  intros w w2. split; [reflexivity|].
  apply (@ponder_halt_is_permanent Fake.bot Fake.engine 1 1
           [EvMount 3; EvChange 0 0 (Js.lit "1"); EvBlur 0 0; EvWait 2000]
           [EvWait 5000; EvTimer 3; EvBlur 0 0] 4 [] eq_refl).
  right. eexists. split; reflexivity.
Defined.

Lemma takeBotAction_without_recommendation_witness :
  let w := Scenario.bot_to_move in
  let b := {| Fake.rows := 2; Fake.cols := 2;
              Fake.filled := [(0, 0, (3%Z, 0))];
              Fake.mover := 1; Fake.nplayouts := 0 |} in
  bot w = Some b
  /\ get_best_action (Nat.iter 0 playout b) = None
  /\ is_finished b = false
  /\ shouldPonder (snd (takeBotAction 0 w)) = false
  /\ filter is_place (calls (snd (takeBotAction 0 w)))
     = filter is_place (calls w).
Proof.
  intros w b. split; [reflexivity|]. split; [reflexivity|].
  split; [reflexivity|].
  destruct (@takeBotAction_without_recommendation Fake.bot Fake.engine
              w b 0 eq_refl eq_refl) as (_ & H1 & _ & H3 & _).
  split; assumption.
Defined.

Lemma onCellInputBlur_forwards_tokens_outside_the_grammar_witness :
  is_blank_or_digits (Js.lit "a1") = false
  /\ Js.parseInt10 (Js.lit "a1") = Js.NaN
  /\ Grid_onCellInputBlur 0 0 (Js.lit "a1") Scenario.mounted
     = takeAction
         (Some {| a_row := 0; a_col := 0;
                  a_guess := Js.parseInt10 (Js.lit "a1") |})
         Scenario.mounted
  /\ Grid_onCellInputBlur 0 0 (Js.lit "a1") Scenario.mounted
     <> (Ret tt, Scenario.mounted)
  /\ calls (snd (Grid_onCellInputBlur 0 0 (Js.lit "a1") Scenario.mounted))
     = calls Scenario.mounted ++ [CallPlace 0 0 (Js.parseInt10 (Js.lit "a1"))].
Proof.
  split; [reflexivity|]. split; [reflexivity|].
  apply (@onCellInputBlur_forwards_tokens_outside_the_grammar
           Fake.bot Fake.engine Scenario.mounted
           {| Fake.rows := 2; Fake.cols := 2; Fake.filled := [];
              Fake.mover := 0; Fake.nplayouts := 3 |}
           0 0
           [{| guess := None; player := None |};
            {| guess := None; player := None |}]
           {| guess := None; player := None |}
           (Js.lit "a1")); reflexivity.
Defined.

(* ================================================================== *)
(** * Further properties of the controller *)

(* ------------------------------------------------------------------ *)
(** ** The two patterns *)

Lemma ends_with_digit_iff (s : Js.str) :
  ends_with_digit s = true
  <-> exists t c, s = t ++ [c] /\ Js.is_digit c = true.
Proof.
  induction s as [|x s IH].
  - split; [discriminate|]. intros (t & c & H & _).
    destruct t; discriminate.
  - destruct s as [|y s].
    + cbn [ends_with_digit]. split.
      * intros H. exists [], x. auto.
      * intros (t & c & H & Hc). destruct t as [|z t].
        -- injection H as ->. exact Hc.
        -- injection H as _ H. destruct t; discriminate.
    + change (ends_with_digit (x :: y :: s)) with (ends_with_digit (y :: s)).
      rewrite IH. split.
      * intros (t & c & H & Hc). exists (x :: t), c. rewrite H. auto.
      * intros (t & c & H & Hc). destruct t as [|z t]; [discriminate|].
        injection H as _ H. eauto.
Qed.

(** X1. [legalActionRegex] accepts exactly the strings that start with an X
    or end with a digit. *)
Theorem legalActionRegex_accepts_iff (s : Js.str) :
  Regex.test legalActionRegex s = true
  <-> (exists t, s = 88%N :: t)
      \/ (exists t c, s = t ++ [c] /\ (48 <= c)%N /\ (c <= 57)%N).
Proof.
  rewrite test_legalActionRegex, orb_true_iff, ends_with_digit_iff.
  assert (HX : starts_with_X s = true <-> exists t, s = 88%N :: t).
  { destruct s as [|c s]; cbn.
    - split; [discriminate|]. intros [t H]. discriminate.
    - rewrite N.eqb_eq. split.
      + intros ->. eauto.
      + intros [t H]. congruence. }
  rewrite HX. apply or_iff_compat_l. split.
  - intros (t & c & H & Hc). exists t, c. split; [exact H|].
    unfold Js.is_digit in Hc. apply andb_true_iff in Hc as [H1 H2].
    apply N.leb_le in H1, H2. auto.
  - intros (t & c & H & H1 & H2). exists t, c. split; [exact H|].
    unfold Js.is_digit. apply andb_true_iff. split; apply N.leb_le; assumption.
Qed.

(** X2. The pattern of the superseded file accepts exactly the empty string
    and the one-character tokens 0, 1, 2, 3, 4 and X. *)
Theorem legacy_pattern_accepts_iff (s : Js.str) :
  Regex.test legalActionRegex_legacy s = true
  <-> s = [] \/ exists c, s = [c] /\ (((48 <= c)%N /\ (c <= 52)%N) \/ c = 88%N).
Proof.
  rewrite test_legacy. destruct s as [|c [|d s]].
  - tauto.
  - rewrite orb_true_iff, andb_true_iff, N.eqb_eq, !N.leb_le. split.
    + intros H. right. exists c. tauto.
    + intros [H|(c' & H & H')]; [discriminate|]. injection H as <-. tauto.
  - split; [discriminate|]. intros [H|(c' & H & _)]; discriminate.
Qed.

(* ------------------------------------------------------------------ *)
(** ** What the handlers leave alone *)

Lemma lifetime_calls_app (l1 l2 : list Call) :
  lifetime_calls (l1 ++ l2) = lifetime_calls l1 ++ lifetime_calls l2.
Proof. apply filter_app. Qed.

Lemma lifetime_calls_playouts (site : Site) (n : nat) :
  lifetime_calls (repeat (CallPlayout site) n) = [].
Proof. induction n as [|n IH]; [reflexivity|exact IH]. Qed.

Section Frames.

Context {Bot : Type} {E : WasmBot Bot}.

Implicit Types (w : World Bot) (b : Bot).

Lemma getGameState_shape w :
  length (grid (getGameState w)) = nrows w
  /\ Forall (fun r => length r = ncols w) (grid (getGameState w)).
Proof.
  cbn [getGameState grid]. split.
  - rewrite length_map, length_seq. reflexivity.
  - apply Forall_forall. intros r Hr. apply in_map_iff in Hr as (i & <- & _).
    rewrite length_map, length_seq. reflexivity.
Qed.

Lemma steady_refl w : steady w w.
Proof. unfold steady. tauto. Qed.

Lemma steady_trans w w1 w2 : steady w w1 -> steady w1 w2 -> steady w w2.
Proof.
  unfold steady.
  intros (A1 & A2 & A3 & A4 & A5 & A6 & A7) (B1 & B2 & B3 & B4 & B5 & B6 & B7).
  split; [congruence|]. split; [congruence|]. split; [congruence|].
  split; [congruence|]. split; [congruence|]. split; [congruence|]. auto.
Qed.

(** Fields that no part of the snapshot depends on. *)
Lemma steady_same_state w w' :
  nrows w' = nrows w -> ncols w' = ncols w -> lifecycle w' = lifecycle w ->
  uncaught w' = uncaught w ->
  lifetime_calls (calls w') = lifetime_calls (calls w) ->
  count_cb CbTakeBotAction (timers w') = count_cb CbTakeBotAction (timers w) ->
  grid (state w') = grid (state w) ->
  steady w w'.
Proof.
  intros H1 H2 H3 H4 H5 H6 H7. unfold steady, grid_shape.
  rewrite H1, H2, H7. tauto.
Qed.

Lemma steady_rebuilt w w0 :
  nrows w0 = nrows w -> ncols w0 = ncols w ->
  lifetime_calls (calls w0) = lifetime_calls (calls w) ->
  lifecycle w0 = lifecycle w -> uncaught w0 = uncaught w ->
  timers w0 = timers w ->
  steady w (set_dirty true (set_state (getGameState w0) w0)).
Proof.
  intros H1 H2 H3 H4 H5 H6. destruct (getGameState_shape w0) as [S1 S2].
  unfold steady, grid_shape. exec1. rewrite H6.
  repeat split; auto; congruence.
Qed.

Lemma takeAction_steady (a : option Action) w :
  steady w (snd (takeAction a w))
  /\ contents (snd (takeAction a w)) = contents w
  /\ timers (snd (takeAction a w)) = timers w
  /\ shouldPonder (snd (takeAction a w)) = shouldPonder w
  /\ console (snd (takeAction a w)) = console w.
Proof.
  destruct a as [a|]; [|cbn; auto using steady_refl].
  destruct (bot w) as [b|] eqn:Hb.
  - destruct (place b (a_row a) (a_col a) (a_guess a)) as [msg|b'] eqn:Hp.
    + rewrite (takeAction_reject w b a msg Hb Hp). cbn [snd].
      split; [|repeat split; reflexivity].
      apply steady_same_state; try reflexivity.
      exec1. rewrite lifetime_calls_app. cbn. apply app_nil_r.
    + rewrite (takeAction_accept w b b' a Hb Hp). cbn zeta.
      set (w1 := set_bot (Some b') _).
      assert (HL : lifetime_calls (calls w1) = lifetime_calls (calls w)).
      { unfold w1. exec1. rewrite lifetime_calls_app. cbn. apply app_nil_r. }
      unfold setState. exec1. change (lifecycle w1) with (lifecycle w).
      destruct (lifecycle w) eqn:Hl; cbn beta iota; cbn [snd];
        (split; [|repeat split; reflexivity]).
      * apply steady_same_state; auto.
      * apply steady_rebuilt; auto.
      * apply steady_same_state; auto.
  - rewrite (takeAction_no_bot w a Hb). cbn [snd]. auto using steady_refl.
Qed.

Lemma onCellInputBlur_steady (row col : nat) (v : Js.str) w :
  steady w (snd (Grid_onCellInputBlur row col v w))
  /\ contents (snd (Grid_onCellInputBlur row col v w)) = contents w
  /\ timers (snd (Grid_onCellInputBlur row col v w)) = timers w
  /\ shouldPonder (snd (Grid_onCellInputBlur row col v w)) = shouldPonder w
  /\ console (snd (Grid_onCellInputBlur row col v w)) = console w.
Proof.
  unfold Grid_onCellInputBlur, grid_cell, bind at 1. exec1.
  destruct (nth_error (grid (state w)) row) as [r|];
    [|cbn; auto using steady_refl].
  destruct (nth_error r col) as [c|]; [|cbn; auto using steady_refl].
  exec1. destruct (player c); [cbn; auto using steady_refl|].
  destruct (_ || _); [cbn; auto using steady_refl|].
  apply takeAction_steady.
Qed.

Lemma Cell_onBlur_run (row col : nat) (v : Js.str) w :
  exists w1,
    Cell_onBlur row col v w
    = (Ret tt,
       set_contents
         (fun r c => if Nat.eqb r row && Nat.eqb c col then []
                     else contents w1 r c) w1)
    /\ steady w w1
    /\ contents w1 = contents w
    /\ timers w1 = timers w
    /\ shouldPonder w1 = shouldPonder w.
Proof.
  destruct (onCellInputBlur_steady row col v w) as (S & C & T & P & L).
  unfold Cell_onBlur. exec1.
  destruct (Regex.test legalActionRegex (contents w row col)).
  - destruct (Grid_onCellInputBlur row col v w) as [[[]|e] w1]; cbn [snd] in *.
    + exists w1. auto.
    + exists (set_console (console w1 ++ [LogError e]) w1).
      split; [reflexivity|]. split; [|repeat split; auto].
      eapply steady_trans; [exact S|].
      apply steady_same_state; reflexivity.
  - exists w. auto using steady_refl.
Qed.

Lemma Cell_onBlur_steady (row col : nat) (v : Js.str) w :
  steady w (snd (Cell_onBlur row col v w))
  /\ timers (snd (Cell_onBlur row col v w)) = timers w
  /\ shouldPonder (snd (Cell_onBlur row col v w)) = shouldPonder w.
Proof.
  destruct (Cell_onBlur_run row col v w) as (w1 & H & S & _ & T & P).
  rewrite H. cbn [snd]. split; [|split; assumption].
  eapply steady_trans; [exact S|]. apply steady_same_state; reflexivity.
Qed.

Lemma Cell_onChange_steady (row col : nat) (v : Js.str) w :
  steady w (snd (Cell_onChange row col v w))
  /\ timers (snd (Cell_onChange row col v w)) = timers w
  /\ shouldPonder (snd (Cell_onChange row col v w)) = shouldPonder w.
Proof.
  unfold Cell_onChange, Grid_onCellInputChange. exec1.
  destruct (negb (Regex.test legalActionRegex v)); exec1;
    (split; [apply steady_same_state; reflexivity|split; reflexivity]).
Qed.

Lemma playouts_steady (site : Site) (n : nat) : forall w,
  steady w (snd (playouts site n w))
  /\ state (snd (playouts site n w)) = state w
  /\ timers (snd (playouts site n w)) = timers w
  /\ shouldPonder (snd (playouts site n w)) = shouldPonder w
  /\ now (snd (playouts site n w)) = now w
  /\ console (snd (playouts site n w)) = console w.
Proof.
  induction n as [|n IH]; intros w; [cbn; auto 10 using steady_refl|].
  cbn [playouts]. exec1.
  destruct (bot w) as [b|]; [|cbn; auto 10 using steady_refl].
  exec1.
  match goal with
  | |- context [playouts site n ?x] =>
      destruct (IH x) as (S & H1 & H2 & H3 & H4 & H5);
      destruct (playouts site n x) as [[[]|e] w']; cbn [snd] in *
  end;
    (split; [|repeat split; assumption];
     eapply steady_trans; [|exact S];
     apply steady_same_state; try reflexivity;
     exec1; rewrite lifetime_calls_app; cbn; apply app_nil_r).
Qed.

Lemma playouts_calls (site : Site) (n : nat) : forall w,
  exists k,
    k <= n
    /\ calls (snd (playouts site n w)) = calls w ++ repeat (CallPlayout site) k.
Proof.
  induction n as [|n IH]; intros w.
  - exists 0. cbn. rewrite app_nil_r. auto.
  - cbn [playouts]. exec1. destruct (bot w) as [b|].
    + exec1.
      match goal with
      | |- context [playouts site n ?x] =>
          destruct (IH x) as (k & Hk & Hc);
          destruct (playouts site n x) as [[[]|e] w']; cbn [snd] in *
      end;
        (exists (S k); split; [lia|]; rewrite Hc; exec1;
         rewrite <- app_assoc; reflexivity).
    + exists 0. cbn. rewrite app_nil_r. split; [lia|reflexivity].
Qed.

Lemma playout_loop_steady (site : Site) (budget : Z) (n : nat) w :
  steady w (snd (playout_loop site budget n w))
  /\ state (snd (playout_loop site budget n w)) = state w
  /\ timers (snd (playout_loop site budget n w)) = timers w
  /\ shouldPonder (snd (playout_loop site budget n w)) = shouldPonder w
  /\ console (snd (playout_loop site budget n w)) = console w
  /\ exists k,
       k <= n
       /\ calls (snd (playout_loop site budget n w))
          = calls w ++ repeat (CallPlayout site) k.
Proof.
  destruct (playouts_steady site n w) as (S & H1 & H2 & H3 & H4 & H5).
  destruct (playouts_calls site n w) as (k & Hk & Hc).
  unfold playout_loop. exec1.
  destruct (playouts site n w) as [[[]|e] w1]; cbn [snd] in *; exec1;
    (split; [|repeat split; eauto]);
    exact S.
Qed.

Lemma setState_winProb_steady (p : option Js.number) w :
  steady w (snd (setState_winProb p w))
  /\ activePlayer (state (snd (setState_winProb p w))) = activePlayer (state w)
  /\ grid (state (snd (setState_winProb p w))) = grid (state w)
  /\ scores (state (snd (setState_winProb p w))) = scores (state w)
  /\ timers (snd (setState_winProb p w)) = timers w
  /\ shouldPonder (snd (setState_winProb p w)) = shouldPonder w
  /\ calls (snd (setState_winProb p w)) = calls w.
Proof.
  exec1. destruct (lifecycle w) eqn:Hl; cbn [snd]; exec1;
    (split; [apply steady_same_state; auto|repeat split; reflexivity]).
Qed.

Lemma ponder_frame (n : nat) w :
  steady w (snd (ponder n w))
  /\ activePlayer (state (snd (ponder n w))) = activePlayer (state w)
  /\ grid (state (snd (ponder n w))) = grid (state w)
  /\ scores (state (snd (ponder n w))) = scores (state w)
  /\ exists k,
       k <= n
       /\ calls (snd (ponder n w)) = calls w ++ repeat (CallPlayout InPonder) k.
Proof.
  assert (Hsame : forall w' : World Bot,
             nrows w' = nrows w -> ncols w' = ncols w ->
             lifecycle w' = lifecycle w -> uncaught w' = uncaught w ->
             timers w' = timers w -> state w' = state w -> calls w' = calls w ->
             steady w w'
             /\ activePlayer (state w') = activePlayer (state w)
             /\ grid (state w') = grid (state w)
             /\ scores (state w') = scores (state w)
             /\ exists k,
                  k <= n /\ calls w' = calls w ++ repeat (CallPlayout InPonder) k).
  { intros w' H1 H2 H3 H4 H5 H6 H7. rewrite H6.
    split; [apply steady_same_state; congruence|].
    repeat split; auto. exists 0. rewrite H7. cbn. rewrite app_nil_r.
    split; [lia|reflexivity]. }
  unfold ponder. exec1.
  destruct (shouldPonder w); cbn [negb]; [|apply (Hsame w); reflexivity].
  destruct (bot w) as [b|]; exec1; [|apply (Hsame w); reflexivity].
  destruct (is_finished b); exec1;
    [apply (Hsame (set_shouldPonder false w)); reflexivity|].
  destruct (playout_loop_steady InPonder PONDER_MS n w)
    as (S & H1 & H2 & H3 & H4 & k & Hk & Hc).
  destruct (playout_loop InPonder PONDER_MS n w) as [[[]|e] w1];
    cbn [snd] in *; exec1.
  - assert (Hgo : forall w2 : World Bot,
               nrows w2 = nrows w1 -> ncols w2 = ncols w1 ->
               lifecycle w2 = lifecycle w1 -> uncaught w2 = uncaught w1 ->
               calls w2 = calls w1 ->
               timers w2 = timers w1 ++ [(now w1 + PONDER_INTERVAL, CbPonder)%Z] ->
               activePlayer (state w2) = activePlayer (state w1) ->
               grid (state w2) = grid (state w1) ->
               scores (state w2) = scores (state w1) ->
               steady w w2
               /\ activePlayer (state w2) = activePlayer (state w)
               /\ grid (state w2) = grid (state w)
               /\ scores (state w2) = scores (state w)
               /\ exists k,
                    k <= n
                    /\ calls w2 = calls w ++ repeat (CallPlayout InPonder) k).
    { intros w2 G1 G2 G3 G4 G5 G6 G7 G8 G9.
      split.
      - eapply steady_trans; [exact S|].
        apply steady_same_state; auto; [congruence|].
        rewrite G6, count_cb_app. cbn. lia.
      - rewrite G7, G8, G9, H1. repeat split; auto.
        exists k. rewrite G5. auto. }
    destruct (lifecycle w1) eqn:Hl; exec1;
      match goal with
      | |- steady _ ?x /\ _ => apply (Hgo x); auto
      end.
  - split; [exact S|]. rewrite H1. repeat split; auto. eauto.
Qed.

Lemma takeBotAction_frame (n : nat) w :
  steady w (snd (takeBotAction n w))
  /\ timers (snd (takeBotAction n w)) = timers w
  /\ (shouldPonder w = false -> shouldPonder (snd (takeBotAction n w)) = false).
Proof.
  destruct (playout_loop_steady InTakeBotAction MIN_PLAYOUTS_MS n w)
    as (S & H1 & H2 & H3 & H4 & _).
  unfold takeBotAction. exec1.
  destruct (playout_loop InTakeBotAction MIN_PLAYOUTS_MS n w) as [[[]|e] w1];
    cbn [snd] in *; [|rewrite H3; auto].
  destruct (bot w1) as [b|]; exec1; [|rewrite H3; auto].
  destruct (get_best_action b) as [edge|].
  - destruct (takeAction_steady (Some (action edge)) w1) as (S' & _ & T & P & _).
    split; [eapply steady_trans; eassumption|].
    split; [congruence|]. intros Hs. rewrite P, H3. exact Hs.
  - exec1. split; [|auto].
    eapply steady_trans; [exact S|]. apply steady_same_state; reflexivity.
Qed.

End Frames.

(* ------------------------------------------------------------------ *)
(** ** The handlers, continued *)

Lemma nth_error_seq0 (n i : nat) :
  i < n -> nth_error (seq 0 n) i = Some i.
Proof.
  intros H. rewrite (nth_error_nth' (seq 0 n) 0) by (rewrite length_seq; exact H).
  rewrite seq_nth by exact H. reflexivity.
Qed.

Section MoreHandlerFacts.

Context {Bot : Type} {E : WasmBot Bot}.

Implicit Types (w : World Bot) (b : Bot).

(** X3. [Cell.onBlur] always returns normally, whatever the typed text, the
    event value and the state of the grid: every error of the grid's handler
    is caught.  It always clears the typed text of its own cell and leaves
    the text of every other cell alone, and the task leaves no uncaught
    error behind. *)
Theorem Cell_onBlur_returns_and_clears w (row col : nat) (v : Js.str) :
  fst (Cell_onBlur row col v w) = Ret tt
  /\ contents (snd (Cell_onBlur row col v w)) row col = []
  /\ (forall r c : nat,
         (r, c) <> (row, col) ->
         contents (snd (Cell_onBlur row col v w)) r c = contents w r c)
  /\ uncaught (dispatch (Cell_onBlur row col v) w) = uncaught w.
Proof.
  destruct (Cell_onBlur_run row col v w) as (w1 & H & S & C & _).
  destruct (dispatch_returns _ w _ H) as (_ & _ & _ & U).
  rewrite U, H. cbn [fst snd]. exec1. rewrite !Nat.eqb_refl. cbn [andb].
  split; [reflexivity|]. split; [reflexivity|]. split.
  - intros r c Hne. rewrite C.
    destruct (Nat.eqb r row && Nat.eqb c col) eqn:Hrc; [|reflexivity].
    apply andb_true_iff in Hrc as [Hr Hc].
    apply Nat.eqb_eq in Hr, Hc. subst. congruence.
  - destruct S as (_ & _ & _ & S4 & _). exact S4.
Qed.

(** X4. The snapshot that [getGameState] builds has [nrows] rows of
    [ncols] cells, and the cell at a position of the board is the engine's
    cell at that position, or an unfilled cell while there is no engine. *)
Theorem getGameState_grid w (row col : nat) :
  row < nrows w -> col < ncols w ->
  length (grid (getGameState w)) = nrows w
  /\ exists r,
       nth_error (grid (getGameState w)) row = Some r
       /\ length r = ncols w
       /\ nth_error r col
          = Some (match bot w with
                  | Some b => get_cell b row col
                  | None => unfilled
                  end).
Proof.
  intros Hr Hc. destruct (getGameState_shape w) as [S1 _].
  split; [exact S1|]. cbn [getGameState grid].
  rewrite nth_error_map, (nth_error_seq0 _ _ Hr). cbn [option_map].
  eexists. split; [reflexivity|].
  rewrite length_map, length_seq. split; [reflexivity|].
  rewrite nth_error_map, (nth_error_seq0 _ _ Hc). cbn [option_map].
  destruct (bot w) as [b|]; [|reflexivity].
  destruct (get_cell b row col); reflexivity.
Qed.

(** X5. A pondering cycle touches no part of the snapshot but the estimate:
    the active participant, the grid and the scores are what they were.  The
    only engine calls it makes are playouts, at most as many as the clock
    allows; it never places a move and never releases the engine. *)
Theorem ponder_touches_only_the_estimate (n : nat) w :
  activePlayer (state (snd (ponder n w))) = activePlayer (state w)
  /\ grid (state (snd (ponder n w))) = grid (state w)
  /\ scores (state (snd (ponder n w))) = scores (state w)
  /\ exists k,
       k <= n
       /\ calls (snd (ponder n w)) = calls w ++ repeat (CallPlayout InPonder) k.
Proof.
  destruct (ponder_frame n w) as (_ & H1 & H2 & H3 & H4). auto.
Qed.

(** X6. A pondering cycle that runs on a mounted grid stores in the snapshot
    the estimate of the engine as it is after the playouts, and asks for a
    re-render only when that estimate differs from the one shown. *)
Theorem ponder_refreshes_the_estimate (n : nat) w b :
  bot w = Some b -> shouldPonder w = true -> is_finished b = false ->
  lifecycle w = Mounted ->
  winProb (state (snd (ponder n w)))
  = getWinProb (set_bot (Some (Nat.iter n playout b)) w)
  /\ dirty (snd (ponder n w))
     = dirty w
       || negb (same_winProb
                  (winProb (state w))
                  (getWinProb (set_bot (Some (Nat.iter n playout b)) w)))
  /\ console (snd (ponder n w)) = console w ++ [LogPlayouts n PONDER_MS].
Proof.
  intros Hb Hs Hf Hl. rewrite (ponder_go n w b Hb Hs Hf). cbn zeta. cbn [snd].
  exec1. rewrite Hl. exec1. repeat split; reflexivity.
Qed.

(** X7. When the engine has a recommendation after the playouts,
    [takeBotAction] places exactly that move: the recommendation is the one
    of the engine after the playouts, it is not checked against the
    snapshot, and [shouldPonder] is not touched. *)
Theorem takeBotAction_places_the_recommendation (n : nat) w b (e : Edge) :
  bot w = Some b ->
  get_best_action (Nat.iter n playout b) = Some e ->
  calls (snd (takeBotAction n w))
  = calls w ++ repeat (CallPlayout InTakeBotAction) n
      ++ [CallPlace (a_row (action e)) (a_col (action e)) (a_guess (action e))]
  /\ shouldPonder (snd (takeBotAction n w)) = shouldPonder w
  /\ timers (snd (takeBotAction n w)) = timers w.
Proof.
  intros Hb He. rewrite (takeBotAction_run n w b Hb). cbn zeta. rewrite He.
  set (w1 := set_now _ _).
  destruct (takeAction_steady (Some (action e)) w1) as (_ & _ & T & P & _).
  rewrite (takeAction_calls w1 (Nat.iter n playout b) (action e) eq_refl), T, P.
  unfold w1. exec1. rewrite <- app_assoc. repeat split; reflexivity.
Qed.

End MoreHandlerFacts.

(* ------------------------------------------------------------------ *)
(** ** Tasks, continued *)


Section MoreLoopFacts.

Context {Bot : Type} {E : WasmBot Bot}.

Implicit Types (w : World Bot) (b : Bot).

(** The re-render at the end of a task adds the deferred move of the agent
    and nothing else. *)
Lemma flush_frame w :
  nrows (flush w) = nrows w
  /\ ncols (flush w) = ncols w
  /\ contents (flush w) = contents w
  /\ now (flush w) = now w
  /\ timers (flush w)
     = timers w
       ++ (if dirty w && is_player (activePlayer (state w)) BOT_PLAYER
           then [(now w, CbTakeBotAction)] else []).
Proof.
  unfold flush. destruct (dirty w); cbn [andb];
    [|rewrite app_nil_r; repeat split; reflexivity].
  exec1. destruct (is_player (activePlayer (state w)) BOT_PLAYER); exec1;
    rewrite ?Z.add_0_r, ?app_nil_r; repeat split; reflexivity.
Qed.

Lemma dispatch_frame (c : M Bot unit) w :
  nrows (dispatch c w) = nrows (snd (c w))
  /\ ncols (dispatch c w) = ncols (snd (c w))
  /\ state (dispatch c w) = state (snd (c w))
  /\ lifecycle (dispatch c w) = lifecycle (snd (c w))
  /\ calls (dispatch c w) = calls (snd (c w))
  /\ shouldPonder (dispatch c w) = shouldPonder (snd (c w))
  /\ timers (dispatch c w)
     = timers (snd (c w))
       ++ (if dirty (snd (c w))
              && is_player (activePlayer (state (snd (c w)))) BOT_PLAYER
           then [(now (snd (c w)), CbTakeBotAction)] else []).
Proof.
  unfold dispatch. destruct (c w) as [[a|e] w']; cbn [snd];
    match goal with
    | |- nrows (flush ?x) = _ /\ _ =>
        destruct (flush_effects x) as (F1 & _ & F3 & F4 & F5 & _);
        destruct (flush_frame x) as (G1 & G2 & _ & _ & G5);
        rewrite F1, F3, F4, F5, G1, G2, G5
    end; repeat split; reflexivity.
Qed.

Lemma grid_shape_same w w' :
  nrows w' = nrows w -> ncols w' = ncols w -> state w' = state w ->
  grid_shape w -> grid_shape w'.
Proof. unfold grid_shape. intros -> -> ->. tauto. Qed.

Lemma componentWillUnmount_frame w :
  nrows (snd (componentWillUnmount w)) = nrows w
  /\ ncols (snd (componentWillUnmount w)) = ncols w
  /\ state (snd (componentWillUnmount w)) = state w
  /\ timers (snd (componentWillUnmount w)) = timers w
  /\ dirty (snd (componentWillUnmount w)) = dirty w
  /\ calls (snd (componentWillUnmount w))
     = calls w ++ match bot w with Some _ => [CallFree] | None => [] end.
Proof.
  unfold componentWillUnmount. exec1. destruct (bot w); exec1;
    rewrite ?app_nil_r; repeat split; reflexivity.
Qed.

(** The world in which [componentDidMount] starts its first pondering
    cycle. *)
Lemma mount_world (n : nat) w :
  lifecycle w = Constructed ->
  exists w3,
    step (EvMount n) w = dispatch (fun _ => ponder n w3) w
    /\ bot w3 = Some (wasm_new (nrows w) (ncols w) HUMAN_PLAYER)
    /\ shouldPonder w3 = true
    /\ lifecycle w3 = Mounted
    /\ nrows w3 = nrows w /\ ncols w3 = ncols w
    /\ timers w3 = timers w
    /\ uncaught w3 = uncaught w
    /\ now w3 = now w
    /\ calls w3 = calls w ++ [CallNew (nrows w) (ncols w) HUMAN_PLAYER]
    /\ state w3 = getGameState w3
    /\ grid_shape w3.
Proof.
  intros Hl. cbn [step]. rewrite Hl.
  pose proof (componentDidMount_run n (set_lifecycle Mounted w) eq_refl) as Hrun.
  cbn zeta in Hrun. set (w3 := set_shouldPonder true _) in Hrun.
  exists w3. split.
  - unfold dispatch. rewrite Hrun. reflexivity.
  - repeat split; try reflexivity.
    + apply (getGameState_shape w3).
    + apply (getGameState_shape w3).
Qed.

Lemma steady_shape w w' :
  steady w w' ->
  nrows w' = nrows w /\ ncols w' = ncols w /\ (grid_shape w -> grid_shape w').
Proof. unfold steady. tauto. Qed.

Lemma dispatch_shape (c : M Bot unit) w0 w :
  nrows (snd (c w0)) = nrows w /\ ncols (snd (c w0)) = ncols w
  /\ (grid_shape w -> grid_shape (snd (c w0))) ->
  nrows (dispatch c w0) = nrows w
  /\ ncols (dispatch c w0) = ncols w
  /\ (grid_shape w -> grid_shape (dispatch c w0)).
Proof.
  intros (N1 & N2 & G).
  destruct (dispatch_frame c w0) as (D1 & D2 & D3 & _).
  rewrite D1, D2. split; [exact N1|]. split; [exact N2|]. intros H.
  apply (grid_shape_same (snd (c w0))); auto.
Qed.

Lemma step_shape (ev : Event) w :
  nrows (step ev w) = nrows w
  /\ ncols (step ev w) = ncols w
  /\ (grid_shape w -> grid_shape (step ev w)).
Proof.
  destruct ev as [n|row col text|row col|n|ms|]; cbn [step].
  - destruct (lifecycle w) eqn:Hl; try tauto.
    destruct (mount_world n w Hl)
      as (w3 & Hs & _ & _ & _ & N1 & N2 & _ & _ & _ & _ & _ & G).
    cbn [step] in Hs. rewrite Hl in Hs. rewrite Hs.
    apply dispatch_shape. cbn beta.
    destruct (steady_shape _ _ (proj1 (ponder_frame n w3))) as (P1 & P2 & P3).
    rewrite P1, P2. auto.
  - destruct (has_cell w row col); [|tauto].
    apply dispatch_shape, steady_shape, Cell_onChange_steady.
  - destruct (has_cell w row col); [|tauto].
    apply dispatch_shape, steady_shape, Cell_onBlur_steady.
  - destruct (next_timer w) as [[cb rest]|]; [|tauto].
    apply dispatch_shape.
    assert (S : steady (set_timers rest w)
                  (snd (run_callback cb n (set_timers rest w)))).
    { destruct cb; cbn [run_callback];
        [apply ponder_frame|apply takeBotAction_frame]. }
    destruct (steady_shape _ _ S) as (P1 & P2 & P3).
    rewrite P1, P2. split; [reflexivity|]. split; [reflexivity|].
    intros H. apply P3. exact H.
  - split; [reflexivity|]. split; [reflexivity|]. intros H. exact H.
  - destruct (lifecycle w); try tauto.
    destruct (dispatch_frame componentWillUnmount w) as (D1 & D2 & D3 & _).
    destruct (componentWillUnmount_frame w) as (U1 & U2 & U3 & _).
    exec1. rewrite D1, D2, U1, U2.
    split; [reflexivity|]. split; [reflexivity|].
    unfold grid_shape. exec1. rewrite D1, D2, D3, U1, U2, U3. tauto.
Qed.

Lemma run_shape (evs : list Event) : forall w,
  nrows (run evs w) = nrows w
  /\ ncols (run evs w) = ncols w
  /\ (grid_shape w -> grid_shape (run evs w)).
Proof.
  induction evs as [|ev evs IH]; intros w; [tauto|].
  cbn [run fold_left]. destruct (step_shape ev w) as (S1 & S2 & S3).
  destruct (IH (step ev w)) as (I1 & I2 & I3). unfold run in *.
  rewrite I1, I2, S1, S2. tauto.
Qed.

Lemma init_shape (r c : nat) : grid_shape (init r c : World Bot).
Proof.
  unfold grid_shape, init. cbn.
  split.
  - rewrite length_map, length_seq. reflexivity.
  - apply Forall_forall. intros x Hx. apply in_map_iff in Hx as (i & <- & _).
    rewrite length_map, length_seq. reflexivity.
Qed.

(** X8. In every world that the component reaches, the snapshot has a cell
    for every position of the board, so the lookup with which
    [Grid.onCellInputBlur] starts succeeds there. *)
Theorem snapshot_covers_the_board (r c : nat) (evs : list Event)
      (row col : nat) :
  row < r -> col < c ->
  exists cell,
    grid_cell row col (run evs (init r c))
    = (Ret cell, run evs (init r c)).
Proof.
  intros Hr Hc.
  destruct (run_shape evs (init r c : World Bot)) as (N1 & N2 & G).
  destruct (G (init_shape r c)) as [G1 G2].
  set (w := run evs (init r c)) in *.
  change (nrows (init r c : World Bot)) with r in N1.
  change (ncols (init r c : World Bot)) with c in N2.
  destruct (nth_error (grid (state w)) row) as [rw|] eqn:Hrow.
  - assert (Hlen : length rw = c).
    { rewrite <- N2. apply (proj1 (Forall_forall _ _) G2).
      eapply nth_error_In. exact Hrow. }
    destruct (nth_error rw col) as [cell|] eqn:Hcol.
    + exists cell. apply (grid_cell_found w row col rw cell Hrow Hcol).
    + apply nth_error_None in Hcol. lia.
  - apply nth_error_None in Hrow. rewrite G1, N1 in Hrow. lia.
Qed.

Lemma engine_lifetime_steady w w' :
  steady w w' -> engine_lifetime w -> engine_lifetime w'.
Proof.
  unfold steady, engine_lifetime. intros (S1 & S2 & S3 & _ & S5 & _) H.
  rewrite S1, S2, S3, S5. exact H.
Qed.

Lemma engine_lifetime_dispatch (c : M Bot unit) w :
  engine_lifetime (snd (c w)) -> engine_lifetime (dispatch c w).
Proof.
  destruct (dispatch_frame c w) as (D1 & D2 & _ & D4 & D5 & _).
  unfold engine_lifetime. rewrite D1, D2, D4, D5. tauto.
Qed.

Lemma step_engine_lifetime (ev : Event) w :
  wf w -> engine_lifetime w -> engine_lifetime (step ev w).
Proof.
  intros Hwf H. destruct ev as [n|row col text|row col|n|ms|]; cbn [step].
  - destruct (lifecycle w) eqn:Hl; auto.
    destruct (mount_world n w Hl)
      as (w3 & Hs & _ & _ & L3 & N1 & N2 & _ & _ & _ & C3 & _).
    cbn [step] in Hs. rewrite Hl in Hs. rewrite Hs.
    apply engine_lifetime_dispatch. cbn beta.
    apply (engine_lifetime_steady w3); [apply ponder_frame|].
    unfold engine_lifetime in *. rewrite L3, C3, N1, N2, lifetime_calls_app, H, Hl.
    reflexivity.
  - destruct (has_cell w row col); auto.
    apply engine_lifetime_dispatch.
    apply (engine_lifetime_steady w); [apply Cell_onChange_steady|exact H].
  - destruct (has_cell w row col); auto.
    apply engine_lifetime_dispatch.
    apply (engine_lifetime_steady w); [apply Cell_onBlur_steady|exact H].
  - destruct (next_timer w) as [[cb rest]|]; auto.
    apply engine_lifetime_dispatch.
    apply (engine_lifetime_steady (set_timers rest w)); [|exact H].
    destruct cb; cbn [run_callback];
      [apply ponder_frame|apply takeBotAction_frame].
  - exact H.
  - destruct (lifecycle w) eqn:Hl; auto.
    assert (Hl' : lifecycle w <> Constructed) by congruence.
    destruct (wf_bot w Hwf Hl') as [b Hb].
    destruct (dispatch_frame componentWillUnmount w) as (D1 & D2 & _ & _ & D5 & _).
    destruct (componentWillUnmount_frame w) as (U1 & U2 & _ & _ & _ & U6).
    unfold engine_lifetime in *. exec1.
    rewrite D1, D2, D5, U1, U2, U6, Hb, lifetime_calls_app, H, Hl. reflexivity.
Qed.

Lemma run_engine_lifetime (evs : list Event) : forall w,
  wf w -> engine_lifetime w -> engine_lifetime (run evs w).
Proof.
  induction evs as [|ev evs IH]; intros w Hwf H; [exact H|].
  cbn [run fold_left].
  apply IH; [apply step_wf|apply step_engine_lifetime]; assumption.
Qed.

(** X9. Over the whole life of the component the engine is created exactly
    once, at mount, for the board of the props and with the human as first
    mover, and it is released exactly once, at unmount, after it was
    created; no other task creates or releases an engine. *)
Theorem engine_created_and_released_once (r c : nat) (evs : list Event) :
  lifetime_calls (calls (run evs (init r c)))
  = match lifecycle (run evs (init r c)) with
    | Constructed => []
    | Mounted => [CallNew r c HUMAN_PLAYER]
    | Unmounted => [CallNew r c HUMAN_PLAYER; CallFree]
    end.
Proof.
  assert (H : engine_lifetime (run evs (init r c : World Bot))).
  { apply run_engine_lifetime; [apply wf_init|reflexivity]. }
  destruct (run_shape evs (init r c : World Bot)) as (N1 & N2 & _).
  unfold engine_lifetime in H. rewrite N1, N2 in H. exact H.
Qed.


(** X11. In every world that the component reaches at most one pondering
    cycle is pending; [shouldPonder] is up only while the grid is mounted;
    no timer is pending before the mount; and from the mount on the
    component holds an engine. *)
Theorem pondering_is_single (r c : nat) (evs : list Event) :
  pending CbPonder (run evs (init r c)) <= 1
  /\ (shouldPonder (run evs (init r c)) = true ->
      lifecycle (run evs (init r c)) = Mounted)
  /\ (lifecycle (run evs (init r c)) = Constructed ->
      timers (run evs (init r c)) = [])
  /\ (lifecycle (run evs (init r c)) <> Constructed ->
      exists b, bot (run evs (init r c)) = Some b).
Proof.
  destruct (run_wf evs (init r c : World Bot) (wf_init r c))
    as (W1 & W2 & W3 & W4).
  split; [exact W4|]. split; [|split; [apply W1|exact W2]].
  intros Hs. destruct (lifecycle (run evs (init r c))) eqn:Hl; [|reflexivity|].
  - rewrite W3 in Hs by congruence. discriminate.
  - rewrite W3 in Hs by congruence. discriminate.
Qed.

End MoreLoopFacts.

(* ------------------------------------------------------------------ *)
(** ** Whole tasks *)

Section SessionFacts.

Context {Bot : Type} {E : WasmBot Bot}.

Implicit Types (w : World Bot) (b : Bot).

Lemma flush_clean w : dirty (flush w) = false.
Proof.
  unfold flush. destruct (dirty w) eqn:Hd; [|exact Hd].
  exec1. destruct (is_player (activePlayer (state w)) BOT_PLAYER); reflexivity.
Qed.

Lemma dispatch_clean (c : M Bot unit) w : dirty (dispatch c w) = false.
Proof. unfold dispatch. destruct (c w) as [[a|e] w']; apply flush_clean. Qed.

Lemma step_clean (ev : Event) w : dirty w = false -> dirty (step ev w) = false.
Proof.
  intros H. destruct ev as [n|row col text|row col|n|ms|]; cbn [step].
  - destruct (lifecycle w); auto using dispatch_clean.
  - destruct (has_cell w row col); auto using dispatch_clean.
  - destruct (has_cell w row col); auto using dispatch_clean.
  - destruct (next_timer w) as [[cb rest]|]; auto using dispatch_clean.
  - exact H.
  - destruct (lifecycle w); auto. exec1. apply dispatch_clean.
Qed.

Lemma run_clean (evs : list Event) : forall w,
  dirty w = false -> dirty (run evs w) = false.
Proof.
  induction evs as [|ev evs IH]; intros w H; [exact H|].
  cbn [run fold_left]. apply IH, step_clean, H.
Qed.

(** X12. A blur on an unfilled cell of the mounted grid, with a typed token
    that the pattern accepts and a move that the engine accepts: the engine
    is asked once, the snapshot is rebuilt from the engine after the move,
    the typed text of the cell is cleared, nothing is logged or left
    uncaught, and a move of the agent is deferred exactly when the engine
    now names the agent as the active participant. *)
Theorem accepted_commit_is_mirrored w b b' (row col : nat)
      (r : list CellInfo) :
  has_cell w row col = true ->
  bot w = Some b ->
  nth_error (grid (state w)) row = Some r ->
  nth_error r col = Some unfilled ->
  Regex.test legalActionRegex (contents w row col) = true ->
  place b row col
        (if Js.str_eqb (contents w row col) (Js.lit "X") then Js.Fin 0
         else Js.parseInt10 (contents w row col)) = inr b' ->
  bot (step (EvBlur row col) w) = Some b'
  /\ state (step (EvBlur row col) w) = getGameState (set_bot (Some b') w)
  /\ contents (step (EvBlur row col) w) row col = []
  /\ calls (step (EvBlur row col) w)
     = calls w
       ++ [CallPlace row col
             (if Js.str_eqb (contents w row col) (Js.lit "X") then Js.Fin 0
              else Js.parseInt10 (contents w row col))]
  /\ console (step (EvBlur row col) w) = console w
  /\ uncaught (step (EvBlur row col) w) = uncaught w
  /\ timers (step (EvBlur row col) w)
     = timers w
       ++ (if is_player (get_active_player b') BOT_PLAYER
           then [(now w, CbTakeBotAction)] else []).
Proof.
  intros Hcell Hb Hr Hc Ht Hp.
  assert (Hl : lifecycle w = Mounted).
  { unfold has_cell in Hcell. destruct (lifecycle w); congruence. }
  assert (Hv : Cell_getContent w row col = contents w row col).
  { unfold Cell_getContent. rewrite Hr, Hc. reflexivity. }
  assert (Hne : at_end (contents w row col) = false).
  { destruct (contents w row col); [|reflexivity].
    rewrite test_empty in Ht. discriminate. }
  cbn [step]. rewrite Hcell, Hv.
  set (a := {| a_row := row; a_col := col;
               a_guess := if Js.str_eqb (contents w row col) (Js.lit "X")
                          then Js.Fin 0
                          else Js.parseInt10 (contents w row col) |}).
  assert (Hrun : Grid_onCellInputBlur row col (contents w row col) w
                 = takeAction (Some a) w).
  { rewrite (onCellInputBlur_unfilled w row col r unfilled _ Hr Hc eq_refl).
    rewrite Hne, Ht. reflexivity. }
  unfold dispatch, Cell_onBlur, bind, get, try_catch. cbn beta iota.
  rewrite Ht, Hrun, (takeAction_accept w b b' a Hb Hp). cbn zeta.
  unfold flush. exec1. rewrite Hl. exec1.
  change (activePlayer (getGameState _)) with (get_active_player b').
  destruct (is_player (get_active_player b') BOT_PLAYER); exec1;
    rewrite ?Nat.eqb_refl, ?Z.add_0_r, ?app_nil_r; repeat split; reflexivity.
Qed.




Lemma takeBotAction_places_calls (n : nat) w b :
  bot w = Some b ->
  exists more : list Call,
    calls (snd (takeBotAction n w))
    = calls w ++ repeat (CallPlayout InTakeBotAction) n ++ more.
Proof.
  intros Hb. rewrite (takeBotAction_run n w b Hb). cbn zeta.
  destruct (get_best_action (Nat.iter n playout b)) as [e|].
  - set (w1 := set_now _ _).
    rewrite (takeAction_calls w1 (Nat.iter n playout b) (action e) eq_refl).
    subst w1. exec1. rewrite <- app_assoc. eauto.
  - exec1. exists []. rewrite app_nil_r. reflexivity.
Qed.

(** X13. Unmounting lowers the flag and releases the engine, and that is
    all: the timers that are pending stay pending, and the snapshot is what
    it was. *)
Theorem unmount_keeps_the_timers (r c : nat) (evs : list Event) :
  lifecycle (run evs (init r c)) = Mounted ->
  lifecycle (step EvUnmount (run evs (init r c))) = Unmounted
  /\ shouldPonder (step EvUnmount (run evs (init r c))) = false
  /\ timers (step EvUnmount (run evs (init r c))) = timers (run evs (init r c))
  /\ state (step EvUnmount (run evs (init r c))) = state (run evs (init r c))
  /\ exists b,
       bot (run evs (init r c)) = Some b
       /\ bot (step EvUnmount (run evs (init r c))) = Some (free b)
       /\ calls (step EvUnmount (run evs (init r c)))
          = calls (run evs (init r c)) ++ [CallFree].
Proof.
  intros Hl.
  pose proof (run_wf evs (init r c : World Bot) (wf_init r c)) as Hwf.
  pose proof (run_clean evs (init r c : World Bot) eq_refl) as Hd.
  set (w := run evs (init r c)) in *.
  assert (Hl' : lifecycle w <> Constructed) by congruence.
  destruct (wf_bot w Hwf Hl') as [b Hb].
  cbn [step]. rewrite Hl. unfold dispatch, componentWillUnmount. exec1.
  rewrite Hb. exec1. unfold flush. exec1. rewrite Hd.
  repeat split. exists b. repeat split; reflexivity.
Qed.


(** X15. The move of the agent that was deferred before the grid was
    unmounted still runs afterwards, and it starts by calling [playout] on
    the engine that has been released: the call comes after the one call of
    [free], and nothing in [takeBotAction] tests whether the grid is still
    mounted. *)
Theorem deferred_move_calls_the_released_engine (r c : nat)
      (evs : list Event) (n : nat) (rest : list (Z * Callback)) :
  lifecycle (run evs (init r c)) = Unmounted ->
  next_timer (run evs (init r c)) = Some (CbTakeBotAction, rest) ->
  In CallFree (calls (run evs (init r c)))
  /\ exists more : list Call,
       calls (step (EvTimer (S n)) (run evs (init r c)))
       = calls (run evs (init r c)) ++ CallPlayout InTakeBotAction :: more.
Proof.
  intros Hl Hn.
  pose proof (run_wf evs (init r c : World Bot) (wf_init r c)) as Hwf.
  pose proof (run_engine_lifetime evs (init r c : World Bot)
                (wf_init r c) eq_refl) as Hlife.
  set (w := run evs (init r c)) in *.
  assert (Hl' : lifecycle w <> Constructed) by congruence.
  destruct (wf_bot w Hwf Hl') as [b Hb].
  split.
  - unfold engine_lifetime in Hlife. rewrite Hl in Hlife.
    assert (Hin : In CallFree (lifetime_calls (calls w))).
    { rewrite Hlife. right. left. reflexivity. }
    unfold lifetime_calls in Hin. apply filter_In in Hin. tauto.
  - cbn [step]. rewrite Hn. cbn [run_callback].
    destruct (dispatch_frame (takeBotAction (S n)) (set_timers rest w))
      as (_ & _ & _ & _ & D5 & _).
    rewrite D5.
    destruct (takeBotAction_places_calls (S n) (set_timers rest w) b Hb)
      as [more Hm].
    rewrite Hm. cbn [repeat]. rewrite <- app_comm_cons. eauto.
Qed.

End SessionFacts.

(* ------------------------------------------------------------------ *)
(** ** What a token becomes *)

Lemma parseInt10_X (t : Js.str) : Js.parseInt10 (88%N :: t) = Js.NaN.
Proof. reflexivity. Qed.

Lemma parseInt10_minus (ds : Js.str) :
  ds <> [] -> all_digits ds = true -> (decimal_value ds < 2 ^ 53)%Z ->
  Js.parseInt10 (45%N :: ds) = Js.of_Z (- decimal_value ds).
Proof.
  intros Hne Hd Hsafe. pose proof (decimal_value_nonneg ds Hd) as Hpos.
  unfold Js.parseInt10.
  change (Js.trim_start (45%N :: ds)) with (45%N :: ds). cbn beta iota zeta.
  change ((45 =? 45)%N) with true. rewrite orb_true_r. cbn beta iota.
  rewrite (take_all_digits _ Hd).
  destruct ds as [|d ds]; [congruence|].
  rewrite math_int_decimal.
  replace (-1 * decimal_value (d :: ds))%Z with (- decimal_value (d :: ds))%Z
    by lia.
  apply of_int_safe. lia.
Qed.

Lemma test_minus (ds : Js.str) :
  ds <> [] -> all_digits ds = true ->
  Regex.test legalActionRegex (45%N :: ds) = true.
Proof.
  intros Hne Hd. rewrite test_legalActionRegex.
  destruct ds as [|d ds]; [congruence|].
  change (ends_with_digit (45%N :: d :: ds)) with (ends_with_digit (d :: ds)).
  rewrite (all_digits_ends_with_digit _ Hne Hd). apply orb_true_r.
Qed.

Section TokenFacts.

Context {Bot : Type} {E : WasmBot Bot}.

Implicit Types (w : World Bot) (b : Bot).

(** X16. A token that starts with an X and goes on reaches the engine as
    NaN: the pattern accepts it for its first character, it is not the
    token X, and [parseInt] finds no digit at its start. *)
Theorem X_prefixed_token_is_placed_as_NaN w b (row col : nat)
      (r : list CellInfo) (c : CellInfo) (t : Js.str) :
  bot w = Some b ->
  nth_error (grid (state w)) row = Some r -> nth_error r col = Some c ->
  player c = None -> t <> [] ->
  calls (snd (Grid_onCellInputBlur row col (88%N :: t) w))
  = calls w ++ [CallPlace row col Js.NaN].
Proof.
  intros Hb Hr Hc Hp Ht.
  rewrite (onCellInputBlur_unfilled w row col r c _ Hr Hc Hp).
  rewrite test_legalActionRegex. cbn [at_end starts_with_X orb negb].
  change ((88 =? 88)%N) with true. cbn [orb negb].
  rewrite (takeAction_calls w b _ Hb). cbn [a_row a_col a_guess].
  destruct t as [|x t]; [congruence|]. reflexivity.
Qed.

(** X17. A minus sign followed by digits that spell a number from 1 to
    2^53 - 1 reaches the engine as the negative of that number: the pattern
    looks only at the last character, and [parseInt] reads the sign.  (From
    2^53 on [parseInt] rounds, and for zero it gives the negative zero.) *)
Theorem negative_number_is_placed w b (row col : nat)
      (r : list CellInfo) (c : CellInfo) (ds : Js.str) :
  bot w = Some b ->
  nth_error (grid (state w)) row = Some r -> nth_error r col = Some c ->
  player c = None -> all_digits ds = true ->
  (0 < decimal_value ds < 2 ^ 53)%Z ->
  calls (snd (Grid_onCellInputBlur row col (45%N :: ds) w))
  = calls w ++ [CallPlace row col (Js.of_Z (- decimal_value ds))].
Proof.
  intros Hb Hr Hc Hp Hd [Hpos Hsafe].
  assert (Hne : ds <> []) by (intros ->; cbn in Hpos; lia).
  rewrite (onCellInputBlur_unfilled w row col r c _ Hr Hc Hp).
  rewrite (test_minus ds Hne Hd). cbn [at_end orb negb].
  rewrite (takeAction_calls w b _ Hb). cbn [a_row a_col a_guess].
  rewrite (parseInt10_minus ds Hne Hd Hsafe). reflexivity.
Qed.

(** X18. The handler of the superseded file places nothing but the values
    0 to 4, each for its one-character token, X standing for 0: whatever
    the token and the grid, either no call is made or [place] is called
    once with such a value. *)
Theorem legacy_blur_places_only_0_to_4 w (row col : nat) (v : Js.str) :
  calls (snd (Legacy.Grid_onCellInputBlur row col v w)) = calls w
  \/ exists z : Z,
       (0 <= z <= 4)%Z
       /\ calls (snd (Legacy.Grid_onCellInputBlur row col v w))
          = calls w ++ [CallPlace row col (Js.of_Z z)].
Proof.
  unfold Legacy.Grid_onCellInputBlur, grid_cell, bind at 1. exec1.
  destruct (nth_error (grid (state w)) row) as [r|]; [|left; reflexivity].
  destruct (nth_error r col) as [c|]; [|left; reflexivity].
  exec1. destruct (player c); [left; reflexivity|].
  rewrite test_legacy.
  destruct v as [|x [|y v]]; [left; reflexivity| |left; reflexivity].
  cbn [orb].
  destruct (((48 <=? x)%N && (x <=? 52)%N) || (x =? 88)%N) eqn:Hx;
    cbn [negb]; [|left; reflexivity].
  destruct (bot w) as [b|] eqn:Hb.
  - right. rewrite (takeAction_calls w b _ Hb). cbn [a_row a_col a_guess].
    apply orb_true_iff in Hx as [Hx|Hx].
    + apply andb_true_iff in Hx as [H1 H2]. apply N.leb_le in H1, H2.
      assert (Hd : all_digits [x] = true).
      { unfold all_digits, Js.is_digit. cbn [forallb].
        rewrite andb_true_r. apply andb_true_iff.
        split; apply N.leb_le; lia. }
      rewrite (digits_not_X _ Hd).
      rewrite (parseInt10_digits [x]);
        [|congruence|exact Hd|cbn [decimal_value length]; unfold Js.digit_val; lia].
      exists (decimal_value [x]). split; [|reflexivity].
      cbn [decimal_value length]. unfold Js.digit_val. lia.
    + apply N.eqb_eq in Hx. subst x. exists 0%Z. split; [lia|reflexivity].
  - left. unfold takeAction. exec1. rewrite Hb. reflexivity.
Qed.

(** X19. The text typed into a cell that holds no guess is what the cell
    shows afterwards, whatever the text; the other cells show what they
    showed; and the grid logs the text exactly when the pattern rejects
    it. *)
Theorem typed_text_is_shown w (row col : nat) (r : list CellInfo)
      (c : CellInfo) (v : Js.str) :
  nth_error (grid (state w)) row = Some r -> nth_error r col = Some c ->
  guess c = None ->
  Cell_getContent (snd (Cell_onChange row col v w)) row col = v
  /\ (forall r' c' : nat,
         (r', c') <> (row, col) ->
         Cell_getContent (snd (Cell_onChange row col v w)) r' c'
         = Cell_getContent w r' c')
  /\ console (snd (Cell_onChange row col v w))
     = console w
       ++ (if Regex.test legalActionRegex v then [] else [LogFailedRegex v]).
Proof.
  intros Hr Hc Hg. unfold Cell_onChange, Grid_onCellInputChange, Cell_getContent.
  destruct (Regex.test legalActionRegex v); cbn [negb]; exec1;
    rewrite Hr, Hc, Hg, !Nat.eqb_refl, ?app_nil_r.
  all: split; [reflexivity|split; [|reflexivity]].
  all: intros r' c' Hne.
  all: assert (Hb : Nat.eqb r' row && Nat.eqb c' col = false)
         by (apply andb_false_iff;
             destruct (Nat.eqb_spec r' row) as [->|];
             [right; apply Nat.eqb_neq; congruence|left; reflexivity]).
  all: rewrite Hb; reflexivity.
Qed.

(** X20. When the engine's recommendation has no visits, the estimate is
    present but it is no number in a range: the division by zero makes it
    NaN or an infinity, and nothing in [getWinProb] guards against it. *)
Theorem estimate_without_visits_is_not_finite w b (e : Edge) :
  bot w = Some b ->
  get_active_player b = Some HUMAN_PLAYER ->
  get_best_action b = Some e ->
  visits e = 0%Z ->
  exists p : Js.number,
    getWinProb w = Some p /\ forall q : Q, p <> Js.Fin q.
Proof.
  intros Hb Ha He Hv. unfold getWinProb. rewrite Hb, Ha, He, Hv.
  cbn [is_player Nat.eqb HUMAN_PLAYER negb]. eexists. split; [reflexivity|].
  intros q. destruct (score e) as [|s|x]; cbn; try discriminate.
  unfold Js.q_zero. destruct (Qnum x =? 0)%Z; cbn; discriminate.
Qed.

End TokenFacts.

(* ------------------------------------------------------------------ *)
(** ** The first task *)

Section MountFacts.

Context {Bot : Type} {E : WasmBot Bot}.

Lemma ponder_finished (n : nat) (w : World Bot) (b : Bot) :
  bot w = Some b -> shouldPonder w = true -> is_finished b = true ->
  ponder n w = (Ret tt, set_shouldPonder false w).
Proof.
  intros Hb Hs Hf. unfold ponder. exec1. rewrite Hs. cbn [negb].
  rewrite Hb. exec1. rewrite Hf. reflexivity.
Qed.

(** X21. What mounting does, for every board and engine.  It creates the
    engine, takes the snapshot from the new engine, raises the flag and runs
    the first pondering cycle at once: with an engine that is finished from
    the start the cycle lowers the flag again and nothing is scheduled;
    otherwise it runs the playouts that the clock allows, refreshes the
    estimate from the engine after them and schedules the next cycle. *)
Theorem mount_starts_the_session (r c n : nat) :
  let b0 := wasm_new r c HUMAN_PLAYER in
  let k := if is_finished b0 then 0 else n in
  let w' := step (EvMount n) (init r c) in
  lifecycle w' = Mounted
  /\ shouldPonder w' = negb (is_finished b0)
  /\ bot w' = Some (Nat.iter k playout b0)
  /\ calls w' = CallNew r c HUMAN_PLAYER :: repeat (CallPlayout InPonder) k
  /\ grid (state w') = grid (getGameState (set_bot (Some b0) (init r c)))
  /\ activePlayer (state w') = get_active_player b0
  /\ scores (state w') = get_scores b0
  /\ winProb (state w')
     = getWinProb (set_bot (Some (Nat.iter k playout b0)) (init r c))
  /\ pending CbPonder w' = (if is_finished b0 then 0 else 1)
  /\ pending CbTakeBotAction w'
     = (if is_player (get_active_player b0) BOT_PLAYER then 1 else 0).
Proof.
  intros b0 k w'. subst w'. cbn [step].
  change (lifecycle (init r c)) with Constructed. cbn iota.
  unfold dispatch.
  rewrite (componentDidMount_run n (set_lifecycle Mounted (init r c)) eq_refl).
  cbn zeta.
  change (nrows (set_lifecycle Mounted (init r c))) with r.
  change (ncols (set_lifecycle Mounted (init r c))) with c.
  fold b0. subst k. unfold pending.
  destruct (is_finished b0) eqn:Hf.
  - match goal with
    | |- context [ponder n ?x] =>
        rewrite (ponder_finished n x b0 eq_refl eq_refl Hf)
    end.
    unfold flush. exec1.
    change (activePlayer (getGameState _)) with (get_active_player b0).
    destruct (is_player (get_active_player b0) BOT_PLAYER); exec1;
      repeat split; reflexivity.
  - match goal with
    | |- context [ponder n ?x] =>
        rewrite (ponder_go n x b0 eq_refl eq_refl Hf)
    end.
    cbn zeta. unfold flush. exec1. cbn [orb]. exec1.
    change (activePlayer (getGameState _)) with (get_active_player b0).
    cbn [activePlayer grid scores winProb].
    destruct (is_player (get_active_player b0) BOT_PLAYER); exec1;
      repeat split; reflexivity.
Qed.

End MountFacts.

(* ------------------------------------------------------------------ *)
(** ** Before the mount *)

Section ConstructorFacts.

Context {Bot : Type} {E : WasmBot Bot}.

(** X22. The snapshot that the constructor takes, before there is an
    engine: every cell of the board is unfilled, the human is the active
    participant, the scores are 0 and 0, there is no estimate, and the
    first render defers nothing. *)
Theorem constructor_snapshot (r c : nat) :
  state (init r c : World Bot)
  = {| activePlayer := Some HUMAN_PLAYER;
       grid := repeat (repeat unfilled c) r;
       scores := [0; 0]%Z;
       winProb := None |}
  /\ timers (init r c : World Bot) = []
  /\ calls (init r c : World Bot) = []
  /\ bot (init r c : World Bot) = None.
Proof.
  split; [|repeat split; reflexivity].
  unfold init. exec1. unfold getGameState, getWinProb. exec1.
  cbn [is_player Nat.eqb HUMAN_PLAYER BOT_PLAYER activePlayer]. exec1.
  f_equal. rewrite !map_const, !length_seq. reflexivity.
Qed.

End ConstructorFacts.

(* ------------------------------------------------------------------ *)
(** ** The statements above, on sessions against the small engine *)

Lemma getGameState_grid_witness :
  0 < nrows Scenario.mounted /\ 1 < ncols Scenario.mounted
  /\ length (grid (getGameState Scenario.mounted)) = nrows Scenario.mounted
  /\ exists r,
       nth_error (grid (getGameState Scenario.mounted)) 0 = Some r
       /\ length r = ncols Scenario.mounted
       /\ nth_error r 1
          = Some (match bot Scenario.mounted with
                  | Some b => get_cell b 0 1
                  | None => unfilled
                  end).
Proof.
  assert (H0 : 0 < nrows Scenario.mounted) by (vm_compute; lia).
  assert (H1 : 1 < ncols Scenario.mounted) by (vm_compute; lia).
  split; [exact H0|]. split; [exact H1|].
  exact (@getGameState_grid Fake.bot Fake.engine Scenario.mounted 0 1 H0 H1).
Defined.

Lemma ponder_refreshes_the_estimate_witness :
  winProb (state Scenario.mounted) = Some (Js.Fin (7 # 12))
  /\ winProb (state (snd (ponder 2 Scenario.mounted)))
     = getWinProb
         (set_bot
            (Some (Nat.iter 2 playout
                     {| Fake.rows := 2; Fake.cols := 2; Fake.filled := [];
                        Fake.mover := 0; Fake.nplayouts := 3 |}))
            Scenario.mounted)
  /\ dirty (snd (ponder 2 Scenario.mounted))
     = dirty Scenario.mounted
       || negb (same_winProb
                  (winProb (state Scenario.mounted))
                  (getWinProb
                     (set_bot
                        (Some (Nat.iter 2 playout
                                 {| Fake.rows := 2; Fake.cols := 2;
                                    Fake.filled := []; Fake.mover := 0;
                                    Fake.nplayouts := 3 |}))
                        Scenario.mounted)))
  /\ console (snd (ponder 2 Scenario.mounted))
     = console Scenario.mounted ++ [LogPlayouts 2 PONDER_MS].
Proof.
  split; [reflexivity|].
  apply (@ponder_refreshes_the_estimate Fake.bot Fake.engine 2
           Scenario.mounted
           {| Fake.rows := 2; Fake.cols := 2; Fake.filled := [];
              Fake.mover := 0; Fake.nplayouts := 3 |});
    reflexivity.
Defined.

Lemma takeBotAction_places_the_recommendation_witness :
  let b := {| Fake.rows := 2; Fake.cols := 2;
              Fake.filled := [(0, 0, (3%Z, 0))];
              Fake.mover := 1; Fake.nplayouts := 0 |} in
  let e := {| action := {| a_row := 0; a_col := 1; a_guess := Js.of_Z 1 |};
              score := Js.Fin (1 # 2); visits := 2 |} in
  bot Scenario.bot_to_move = Some b
  /\ get_best_action (Nat.iter 2 playout b) = Some e
  /\ calls (snd (takeBotAction 2 Scenario.bot_to_move))
     = calls Scenario.bot_to_move ++ repeat (CallPlayout InTakeBotAction) 2
         ++ [CallPlace 0 1 (Js.of_Z 1)]
  /\ shouldPonder (snd (takeBotAction 2 Scenario.bot_to_move))
     = shouldPonder Scenario.bot_to_move
  /\ timers (snd (takeBotAction 2 Scenario.bot_to_move))
     = timers Scenario.bot_to_move.
Proof.
  intros b e. split; [reflexivity|]. split; [reflexivity|].
  apply (@takeBotAction_places_the_recommendation Fake.bot Fake.engine 2
           Scenario.bot_to_move b e); reflexivity.
Defined.

Lemma snapshot_covers_the_board_witness :
  exists cell,
    grid_cell 1 1 (run [EvMount 3] (init 2 2) : World Fake.bot)
    = (Ret cell, run [EvMount 3] (init 2 2)).
Proof.
  apply (@snapshot_covers_the_board Fake.bot Fake.engine 2 2 [EvMount 3] 1 1);
    lia.
Defined.

Lemma accepted_commit_is_mirrored_witness :
  let b := {| Fake.rows := 2; Fake.cols := 2; Fake.filled := [];
              Fake.mover := 0; Fake.nplayouts := 3 |} in
  let b' := {| Fake.rows := 2; Fake.cols := 2;
               Fake.filled := [(0, 0, (3%Z, 0))];
               Fake.mover := 1; Fake.nplayouts := 0 |} in
  let w' := step (EvBlur 0 0) Session.typed_3 in
  contents Session.typed_3 0 0 = Js.lit "3"
  /\ place b 0 0 (Js.of_Z 3) = inr b'
  /\ bot w' = Some b'
  /\ state w' = getGameState (set_bot (Some b') Session.typed_3)
  /\ contents w' 0 0 = []
  /\ calls w' = calls Session.typed_3 ++ [CallPlace 0 0 (Js.of_Z 3)]
  /\ console w' = console Session.typed_3
  /\ uncaught w' = uncaught Session.typed_3
  /\ timers w' = timers Session.typed_3 ++ [(128%Z, CbTakeBotAction)].
Proof.
  intros b b' w'. split; [reflexivity|]. split; [reflexivity|].
  apply (@accepted_commit_is_mirrored Fake.bot Fake.engine Session.typed_3
           b b' 0 0 [unfilled; unfilled]); reflexivity.
Defined.

Lemma unmount_keeps_the_timers_witness :
  let w : World Fake.bot := run [EvMount 3] (init 2 2) in
  lifecycle (step EvUnmount w) = Unmounted
  /\ shouldPonder (step EvUnmount w) = false
  /\ timers (step EvUnmount w) = timers w
  /\ state (step EvUnmount w) = state w
  /\ exists b,
       bot w = Some b
       /\ bot (step EvUnmount w) = Some (free b)
       /\ calls (step EvUnmount w) = calls w ++ [CallFree].
Proof.
  intros w.
  apply (@unmount_keeps_the_timers Fake.bot Fake.engine 2 2 [EvMount 3]).
  reflexivity.
Defined.


Lemma deferred_move_calls_the_released_engine_witness :
  let w := Session.closed_early in
  In CallFree (calls w)
  /\ exists more : list Call,
       calls (step (EvTimer 1) w)
       = calls w ++ CallPlayout InTakeBotAction :: more.
Proof.
  intros w.
  apply (@deferred_move_calls_the_released_engine Fake.bot Fake.engine 2 2
           [EvMount 3; EvChange 0 0 (Js.lit "3"); EvBlur 0 0; EvUnmount]
           0 [(1152%Z, CbPonder)]); reflexivity.
Defined.

Lemma X_prefixed_token_is_placed_as_NaN_witness :
  Regex.test legalActionRegex (Js.lit "Xa") = true
  /\ calls (snd (Grid_onCellInputBlur 0 0 (Js.lit "Xa") Scenario.mounted))
     = calls Scenario.mounted ++ [CallPlace 0 0 Js.NaN].
Proof.
  split; [reflexivity|].
  apply (@X_prefixed_token_is_placed_as_NaN Fake.bot Fake.engine
           Scenario.mounted
           {| Fake.rows := 2; Fake.cols := 2; Fake.filled := [];
              Fake.mover := 0; Fake.nplayouts := 3 |}
           0 0 [unfilled; unfilled] unfilled (Js.lit "a"));
    try reflexivity.
  discriminate.
Defined.

Lemma negative_number_is_placed_witness :
  Regex.test legalActionRegex (Js.lit "-3") = true
  /\ calls (snd (Grid_onCellInputBlur 0 0 (Js.lit "-3") Scenario.mounted))
     = calls Scenario.mounted ++ [CallPlace 0 0 (Js.of_Z (-3))].
Proof.
  split; [reflexivity|].
  apply (@negative_number_is_placed Fake.bot Fake.engine
           Scenario.mounted
           {| Fake.rows := 2; Fake.cols := 2; Fake.filled := [];
              Fake.mover := 0; Fake.nplayouts := 3 |}
           0 0 [unfilled; unfilled] unfilled (Js.lit "3"));
    try reflexivity.
  vm_compute. split; reflexivity.
Defined.

Lemma typed_text_is_shown_witness :
  Cell_getContent (snd (Cell_onChange 0 1 (Js.lit "7x") Scenario.mounted)) 0 1
  = Js.lit "7x"
  /\ (forall r' c' : nat,
         (r', c') <> (0, 1) ->
         Cell_getContent
           (snd (Cell_onChange 0 1 (Js.lit "7x") Scenario.mounted)) r' c'
         = Cell_getContent Scenario.mounted r' c')
  /\ console (snd (Cell_onChange 0 1 (Js.lit "7x") Scenario.mounted))
     = console Scenario.mounted
       ++ (if Regex.test legalActionRegex (Js.lit "7x") then []
           else [LogFailedRegex (Js.lit "7x")]).
Proof.
  apply (@typed_text_is_shown Fake.bot Scenario.mounted 0 1
           [unfilled; unfilled] unfilled (Js.lit "7x")); reflexivity.
Defined.

Lemma estimate_without_visits_is_not_finite_witness :
  @getWinProb Fake.bot cold_engine Session.cold = Some Js.NaN
  /\ exists p : Js.number,
       @getWinProb Fake.bot cold_engine Session.cold = Some p
       /\ forall q : Q, p <> Js.Fin q.
Proof.
  split; [reflexivity|].
  apply (@estimate_without_visits_is_not_finite Fake.bot cold_engine
           Session.cold
           {| Fake.rows := 2; Fake.cols := 2; Fake.filled := [];
              Fake.mover := 0; Fake.nplayouts := 0 |}
           {| action := {| a_row := 0; a_col := 0; a_guess := Js.of_Z 1 |};
              score := Js.Fin 0; visits := 0 |});
    reflexivity.
Defined.
